(** * Career chatbot: conversation orchestrator, callback tools, notifications

    A shallow embedding of the Python sources

    - [config/settings.py]               (the [Config] object),
    - [notifications/pushover_client.py] (the [PushoverClient]),
    - [tools/function_tools.py]          (the two callback tools and their dispatch),
    - [ai_agent/agent.py]                (the [AIAgent] and its tool-call loop),

    followed by the properties of the orchestration loop, of the dispatch and
    of the notification sender.

    Conventions of the embedding.

    - A Python [str] is a [string]; every character stands for the Unicode
      code point of the same number (0 to 255).
    - Values decoded from JSON are the inductive [json]; JSON numbers are the
      integers (Python [float]s are left out).
    - Effects are explicit: a computation is a function from the [world]
      (list objects in memory, the requests sent so far, the console) to a
      result or a raised exception together with the new world.
    - The two remote services are oracles of the surrounding section. *)

From Stdlib Require Import ZArith Ascii String.
From stdpp Require Import base option list strings pretty gmap.

Local Open Scope Z_scope.

(** ** Text *)

Module Text.

(** [needle in s] on Python strings. *)
Fixpoint contains (needle s : string) : bool :=
  String.prefix needle s ||
  match s with
  | EmptyString => false
  | String _ rest => contains needle rest
  end.

(** [sep.join(parts)]. *)
Fixpoint join (sep : string) (parts : list string) : string :=
  match parts with
  | [] => ""
  | [p] => p
  | p :: rest => p +:+ sep +:+ join sep rest
  end.

Definition hex_digit (n : N) : ascii :=
  match n with
  | 0 => "0" | 1 => "1" | 2 => "2" | 3 => "3" | 4 => "4" | 5 => "5" | 6 => "6"
  | 7 => "7" | 8 => "8" | 9 => "9" | 10 => "a" | 11 => "b" | 12 => "c"
  | 13 => "d" | 14 => "e" | _ => "f"
  end%N%char.

(** The two lower-case hexadecimal digits of a code point below 256. *)
Definition hex2 (c : ascii) : string :=
  let n := N_of_ascii c in
  String (hex_digit (n / 16)) (String (hex_digit (n mod 16)) "").

Definition code (c : ascii) : N := N_of_ascii c.

Definition char (n : N) : string := String (ascii_of_N n) "".

(** The line feed. *)
Definition nl : string := char 10.

(** The double quote, the single quote and the backslash. *)
Definition dquote : string := char 34.
Definition squote : string := char 39.
Definition backslash : string := char 92.

(** Python truthiness of a [str]. *)
Definition nonempty (s : string) : bool :=
  match s with EmptyString => false | _ => true end.

End Text.

(** ** JSON values, [json.dumps], [str()] and [repr()] *)

#[warnings="-register-all"]
Inductive json : Type :=
| JNull
| JBool (b : bool)
| JNum (n : Z)
| JStr (s : string)
| JList (items : list json)
| JObj (items : list (string * json)).

Module Json.

(** One character of [json.dumps] output under [ensure_ascii=True]:
    quote and backslash are escaped, the short escapes are used for
    backspace, form feed, newline, carriage return and tab, and everything
    else outside space..tilde becomes a [\uXXXX] escape. *)
Definition escape_char (c : ascii) : string :=
  let n := Text.code c in
  if (n =? 34)%N then Text.backslash +:+ Text.dquote
  else if (n =? 92)%N then Text.backslash +:+ Text.backslash
  else if (n =? 8)%N then "\b"
  else if (n =? 12)%N then "\f"
  else if (n =? 10)%N then "\n"
  else if (n =? 13)%N then "\r"
  else if (n =? 9)%N then "\t"
  else if ((32 <=? n) && (n <=? 126))%N then String c ""
  else "\u00" +:+ Text.hex2 c.

Fixpoint escape (s : string) : string :=
  match s with
  | EmptyString => ""
  | String c rest => escape_char c +:+ escape rest
  end.

Definition encode_string (s : string) : string :=
  Text.dquote +:+ escape s +:+ Text.dquote.

(** [json.dumps(v)] with the default separators. *)
Fixpoint dumps (v : json) : string :=
  match v with
  | JNull => "null"
  | JBool true => "true"
  | JBool false => "false"
  | JNum n => pretty n
  | JStr s => encode_string s
  | JList items => "[" +:+ Text.join ", " (map dumps items) +:+ "]"
  | JObj items =>
      "{" +:+ Text.join ", "
                (map (fun kv => encode_string (fst kv) +:+ ": " +:+ dumps (snd kv)) items)
          +:+ "}"
  end.

(** Python truthiness of a decoded value, as tested by [if v:]. *)
Definition truthy (v : json) : bool :=
  match v with
  | JNull => false
  | JBool b => b
  | JNum n => negb (n =? 0)
  | JStr s => Text.nonempty s
  | JList items => match items with [] => false | _ => true end
  | JObj items => match items with [] => false | _ => true end
  end.

(** [type(v).__name__]. *)
Definition type_name (v : json) : string :=
  match v with
  | JNull => "NoneType"
  | JBool _ => "bool"
  | JNum _ => "int"
  | JStr _ => "str"
  | JList _ => "list"
  | JObj _ => "dict"
  end.

(** [d.get(k)] on the items of a dict. *)
Fixpoint get (k : string) (items : list (string * json)) : option json :=
  match items with
  | [] => None
  | (k', v) :: rest => if String.eqb k k' then Some v else get k rest
  end.

End Json.

(** [repr()] and [str()] of decoded values, used by f-string formatting. *)
Module PyStr.

(** A code point that [repr] of a [str] prints as it is. *)
Definition printable (n : N) : bool :=
  ((32 <=? n) && (n <=? 126) || (161 <=? n) && negb (n =? 173))%N.

Definition repr_char (quote : N) (c : ascii) : string :=
  let n := Text.code c in
  if ((n =? quote) || (n =? 92))%N then Text.backslash +:+ String c ""
  else if (n =? 9)%N then "\t"
  else if (n =? 10)%N then "\n"
  else if (n =? 13)%N then "\r"
  else if printable n then String c ""
  else "\x" +:+ Text.hex2 c.

Fixpoint repr_chars (quote : N) (s : string) : string :=
  match s with
  | EmptyString => ""
  | String c rest => repr_char quote c +:+ repr_chars quote rest
  end.

(** [repr(s)] of a string: single quotes, unless the text has a single quote
    and no double quote. *)
Definition repr_string (s : string) : string :=
  let quote : N :=
    if Text.contains Text.squote s && negb (Text.contains Text.dquote s)
    then 34%N else 39%N in
  Text.char quote +:+ repr_chars quote s +:+ Text.char quote.

Fixpoint repr (v : json) : string :=
  match v with
  | JNull => "None"
  | JBool true => "True"
  | JBool false => "False"
  | JNum n => pretty n
  | JStr s => repr_string s
  | JList items => "[" +:+ Text.join ", " (map repr items) +:+ "]"
  | JObj items =>
      "{" +:+ Text.join ", "
                (map (fun kv => repr_string (fst kv) +:+ ": " +:+ repr (snd kv)) items)
          +:+ "}"
  end.

(** [str(v)], which is what [f"{v}"] inserts. *)
Definition str (v : json) : string :=
  match v with
  | JStr s => s
  | _ => repr v
  end.

End PyStr.

(** ** Exceptions *)

(** The classes of [Exception] that occur in the program. The text of an
    exception, [str(e)], is carried with it; the texts of the errors the
    interpreter raises itself follow CPython. *)
Inductive exc_class : Type :=
| TypeError
| AttributeError
| IndexError
| JSONDecodeError
| RequestException (kind : string)
    (* [requests.RequestException] or its subclass [kind]:
       ConnectionError, Timeout, HTTPError, ... *)
| OtherException (name : string).
    (* any other subclass of [Exception], such as the errors of the model
       client *)

Record exn : Type := Exn { exn_class : exc_class; exn_msg : string }.

Definition is_request_exception (e : exn) : bool :=
  match exn_class e with
  | RequestException _ => true
  | _ => false
  end.

(** ** Objects of the model client *)

(** The [arguments] attribute of a requested call is a [str] holding JSON
    text. The program only ever hands it to [json.loads], so the text is
    represented by what decoding it gives: the decoded value, or the message
    of the [JSONDecodeError]. *)
Inductive json_text : Type :=
| Encoded (v : json)
| Malformed (error : string).

Record FunctionCall : Type :=
  { fn_name : string; fn_arguments : json_text }.

Record ToolCall : Type :=
  { call_id : string; call_function : FunctionCall }.

(** [response.choices[i].message] *)
Record ChatCompletionMessage : Type :=
  { content : option string; tool_calls : option (list ToolCall) }.

Record Choice : Type :=
  { finish_reason : string; message : ChatCompletionMessage }.

Record ChatCompletion : Type :=
  { choices : list Choice }.

(** ** Conversation turns and the world *)

(** An entry of a message list: a [dict] (in insertion order), or the
    assistant message object of a response, appended as it is. *)
Inductive turn : Type :=
| TDict (items : list (string * json))
| TMessage (m : ChatCompletionMessage).

(** References to Python [list] objects holding turns. *)
Abbreviation loc := nat (only parsing).

(** What [chat.completions.create] is called with. *)
Record model_request : Type :=
  { req_model : string; req_messages : list turn; req_tools : json }.

(** What [requests.post] is called with. *)
Record http_request : Type :=
  { post_url : string; post_data : list (string * string); post_timeout : Z }.

Record world : Type := World {
  heap : list (list turn);          (* the list objects, by reference *)
  model_log : list model_request;   (* requests sent to the model endpoint, oldest first *)
  http_log : list http_request;     (* requests sent to the notification endpoint *)
  console : list string             (* lines printed *)
}.

Definition empty_world : world :=
  {| heap := []; model_log := []; http_log := []; console := [] |}.

(** ** Computations *)

Inductive result (A : Type) : Type :=
| Ret (a : A)
| Raise (e : exn).
Arguments Ret {A} a.
Arguments Raise {A} e.

Definition M (A : Type) : Type := world -> result A * world.

Definition ret {A} (a : A) : M A := fun w => (Ret a, w).

Definition raise {A} (e : exn) : M A := fun w => (Raise e, w).

Definition bind {A B} (m : M A) (k : A -> M B) : M B :=
  fun w =>
    match m w with
    | (Ret a, w') => k a w'
    | (Raise e, w') => (Raise e, w')
    end.

(** [try: m  except <classes accepted by catches> as e: handler e] *)
Definition try_except {A} (m : M A) (catches : exn -> bool) (handler : exn -> M A) : M A :=
  fun w =>
    match m w with
    | (Ret a, w') => (Ret a, w')
    | (Raise e, w') => if catches e then handler e w' else (Raise e, w')
    end.

(** Every exception of the model is an [Exception]. *)
Definition Exception (e : exn) : bool := true.

Declare Scope py_scope.
Delimit Scope py_scope with py.
Notation "'let*' x ':=' m 'in' k" := (bind m (fun x => k))
  (at level 10, x name, m at level 100, k at level 200) : py_scope.
Notation "m '>>' k" := (bind m (fun _ => k))
  (at level 80, right associativity) : py_scope.
Local Open Scope py_scope.

(** [print(line)] *)
Definition print (line : string) : M unit :=
  fun w =>
    (Ret tt, {| heap := heap w; model_log := model_log w; http_log := http_log w;
                console := console w ++ [line] |}).

Definition set_heap (h : list (list turn)) (w : world) : world :=
  {| heap := h; model_log := model_log w; http_log := http_log w; console := console w |}.

(** A list display or a concatenation: a new list object. *)
Definition new_list (items : list turn) : M loc :=
  fun w => (Ret (length (heap w)), set_heap (heap w ++ [items]) w).

(** The items of the list object [l]. A reference held by the program
    always denotes an allocated object. *)
Definition read_list (l : loc) : M (list turn) :=
  fun w => (Ret (default [] (heap w !! l)), w).

(** [l.append(t)] *)
Definition list_append (l : loc) (t : turn) : M unit :=
  fun w => (Ret tt, set_heap (alter (fun items => items ++ [t]) l (heap w)) w).

(** [l.extend(ts)] *)
Definition list_extend (l : loc) (ts : list turn) : M unit :=
  fun w => (Ret tt, set_heap (alter (fun items => items ++ ts) l (heap w)) w).

(** [items[i]] *)
Definition index {A} (items : list A) (i : nat) : M A :=
  match items !! i with
  | Some a => ret a
  | None => raise (Exn IndexError "list index out of range")
  end.

(** Truthiness of an [Optional[str]]: [None] and the empty text are false. *)
Definition opt_truthy (o : option string) : bool :=
  match o with
  | Some s => Text.nonempty s
  | None => false
  end.

(** [a or b] on [Optional[str]] *)
Definition py_or (a b : option string) : option string :=
  if opt_truthy a then a else b.

(** ** config/settings.py *)

Record Config : Type := {
  openai_api_key : option string;
  openai_model : string;
  pushover_token : option string;
  pushover_user : option string;
  agent_name : string;
  linkedin_pdf_path : string;
  summary_file_path : string;
  app_title : string;
  app_description : string
}.

(** [Config._load_settings], over the environment [getenv]. *)
Definition _load_settings (getenv : string -> option string) : Config :=
  {| openai_api_key := getenv "OPENAI_API_KEY";
     openai_model := default "gpt-4o-mini" (getenv "OPENAI_MODEL");
     pushover_token := getenv "PUSHOVER_TOKEN";
     pushover_user := getenv "PUSHOVER_USER";
     agent_name := default "Ankur Warikoo" (getenv "AGENT_NAME");
     linkedin_pdf_path := default "me/Ankur Warikoo.pdf" (getenv "LINKEDIN_PDF_PATH");
     summary_file_path := default "me/summary.txt" (getenv "SUMMARY_FILE_PATH");
     app_title := default "AI Agent Chat Interface" (getenv "APP_TITLE");
     app_description := default "Chat with an AI agent" (getenv "APP_DESCRIPTION") |}.

(** [Config.has_notifications] *)
Definition has_notifications (c : Config) : bool :=
  bool_decide (is_Some (pushover_token c)) && bool_decide (is_Some (pushover_user c)).

(** [Config.validate_config] *)
Definition validate_config (c : Config) : bool :=
  let required_vars := [openai_api_key c] in
  forallb (fun var => bool_decide (is_Some var)) required_vars.

(** [Config.get_missing_config] *)
Definition get_missing_config (c : Config) : list string :=
  let missing := [] in
  if negb (opt_truthy (openai_api_key c)) then missing ++ ["OPENAI_API_KEY"] else missing.

(** ** The remote services *)

(** Outcome of [chat.completions.create]. *)
Inductive endpoint_outcome : Type :=
| Raises (e : exn)
| Returns (response : ChatCompletion).

(** The response object of [requests]. *)
Record Response : Type := { status_code : Z; reason : string }.

(** Outcome of [requests.post]: a response, or one of the exceptions of
    [requests], all of which derive from [RequestException]. *)
Inductive post_outcome : Type :=
| PostRaises (kind : string) (msg : string)
| PostReturns (response : Response).

Section Program.

(** The model endpoint and the notification endpoint. Each answers a request
    knowing how many requests it has been sent before. *)
Variable endpoint : nat -> model_request -> endpoint_outcome.
Variable http : nat -> http_request -> post_outcome.

(** The module-level [config = Config()]. *)
Variable config : Config.

(** ** notifications/pushover_client.py *)

Record PushoverClient : Type := {
  token : option string;
  user : option string;
  api_url : string
}.

(** [PushoverClient.__init__] *)
Definition PushoverClient__init__ (token user : option string) : PushoverClient :=
  {| token := py_or token (pushover_token config);
     user := py_or user (pushover_user config);
     api_url := "https://api.pushover.net/1/messages.json" |}.

(** [requests.post(url, data=data, timeout=timeout)]; the post counts as
    sent whether it is answered or fails. *)
Definition requests_post (url : string) (data : list (string * string)) (timeout : Z)
  : M Response :=
  fun w =>
    let request := {| post_url := url; post_data := data; post_timeout := timeout |} in
    let w' := {| heap := heap w; model_log := model_log w;
                 http_log := http_log w ++ [request]; console := console w |} in
    match http (length (http_log w)) request with
    | PostRaises kind msg => (Raise (Exn (RequestException kind) msg), w')
    | PostReturns response => (Ret response, w')
    end.

(** [response.raise_for_status()] of [requests]: an [HTTPError] for the
    client errors 400..499 and the server errors 500..599, nothing
    otherwise. *)
Definition raise_for_status (url : string) (response : Response) : M unit :=
  let status := status_code response in
  if (400 <=? status) && (status <? 500) then
    raise (Exn (RequestException "HTTPError")
               (pretty status +:+ " Client Error: " +:+ reason response
                  +:+ " for url: " +:+ url))
  else if (500 <=? status) && (status <? 600) then
    raise (Exn (RequestException "HTTPError")
               (pretty status +:+ " Server Error: " +:+ reason response
                  +:+ " for url: " +:+ url))
  else ret tt.

(** The [data] dict of [send_notification]. *)
Definition notification_data (self : PushoverClient) (message : string) (title : option string)
  : list (string * string) :=
  let data := [("token", default "" (token self));
               ("user", default "" (user self));
               ("message", message)] in
  if opt_truthy title then data ++ [("title", default "" title)] else data.

(** [PushoverClient.send_notification] *)
Definition send_notification (self : PushoverClient) (message : string) (title : option string)
  : M bool :=
  if negb (opt_truthy (token self)) || negb (opt_truthy (user self)) then
    print "Info: Pushover notifications not configured (optional feature)" >>
    ret true
  else
    try_except
      (let data := notification_data self message title in
       let* response := requests_post (api_url self) data 10 in
       raise_for_status (api_url self) response >>
       ret true)
      is_request_exception
      (fun e =>
         print ("Failed to send Pushover notification: " +:+ exn_msg e) >>
         ret false).

(** The [message] built by [send_user_registration]. *)
Definition user_registration_message (name email notes : json) : string :=
  let message :=
    "New user registration: " +:+ PyStr.str name +:+ " (" +:+ PyStr.str email +:+ ")" in
  if Json.truthy notes then message +:+ " - Notes: " +:+ PyStr.str notes else message.

(** [PushoverClient.send_user_registration] *)
Definition send_user_registration (self : PushoverClient) (name email notes : json) : M bool :=
  send_notification self (user_registration_message name email notes) (Some "User Registration").

(** The [message] built by [send_unknown_question]. *)
Definition unknown_question_message (question : json) : string :=
  "Unknown question recorded: " +:+ PyStr.str question.

(** [PushoverClient.send_unknown_question] *)
Definition send_unknown_question (self : PushoverClient) (question : json) : M bool :=
  send_notification self (unknown_question_message question) (Some "Unknown Question").

(** The module-level [notification_client = PushoverClient()]. *)
Definition notification_client : PushoverClient := PushoverClient__init__ None None.

(** ** tools/function_tools.py *)

(** [record_user_details] *)
Definition record_user_details (email name notes : json) : M json :=
  send_user_registration notification_client name email notes >>
  ret (JObj [("recorded", JStr "ok")]).

(** [record_unknown_question] *)
Definition record_unknown_question (question : json) : M json :=
  send_unknown_question notification_client question >>
  ret (JObj [("recorded", JStr "ok")]).

Definition record_user_details_json : json :=
  JObj [
    ("name", JStr "record_user_details");
    ("description", JStr "Use this tool to record that a user is interested in being in touch and provided an email address");
    ("parameters", JObj [
      ("type", JStr "object");
      ("properties", JObj [
        ("email", JObj [
          ("type", JStr "string");
          ("description", JStr "The email address of this user")]);
        ("name", JObj [
          ("type", JStr "string");
          ("description", JStr "The user's name, if they provided it")]);
        ("notes", JObj [
          ("type", JStr "string");
          ("description", JStr "Any additional information about the conversation that's worth recording to give context")])]);
      ("required", JList [JStr "email"]);
      ("additionalProperties", JBool false)])].

Definition record_unknown_question_json : json :=
  JObj [
    ("name", JStr "record_unknown_question");
    ("description", JStr "Always use this tool to record any question that couldn't be answered as you didn't know the answer");
    ("parameters", JObj [
      ("type", JStr "object");
      ("properties", JObj [
        ("question", JObj [
          ("type", JStr "string");
          ("description", JStr "The question that couldn't be answered")])]);
      ("required", JList [JStr "question"]);
      ("additionalProperties", JBool false)])].

(** [get_tool_definitions] *)
Definition get_tool_definitions : json :=
  JList [
    JObj [("type", JStr "function"); ("function", record_user_details_json)];
    JObj [("type", JStr "function"); ("function", record_unknown_question_json)]].

(** *** The namespace of the module *)

(** The functions the module defines. *)
Inductive def : Type :=
| def_record_user_details
| def_record_unknown_question
| def_get_tool_definitions
| def_handle_tool_calls.

Definition def_name (f : def) : string :=
  match f with
  | def_record_user_details => "record_user_details"
  | def_record_unknown_question => "record_unknown_question"
  | def_get_tool_definitions => "get_tool_definitions"
  | def_handle_tool_calls => "handle_tool_calls"
  end.

(** An object bound in the module: one of its functions, or something else.
    Every other object bound there is true in a condition and raises
    [TypeError] with the text [call_error] when it is called. *)
Inductive pyobj : Type :=
| PyFunction (f : def)
| PyOther (type_name : string) (call_error : string).

Definition not_callable (type_name : string) : pyobj :=
  PyOther type_name ("'" +:+ type_name +:+ "' object is not callable").

(** [globals()] inside [function_tools]: the attributes every module
    has, then the names bound by the imports and the definitions, in the
    order of the file. *)
Definition module_globals : gmap string pyobj :=
  <["handle_tool_calls" := PyFunction def_handle_tool_calls]>
  (<["get_tool_definitions" := PyFunction def_get_tool_definitions]>
  (<["record_unknown_question" := PyFunction def_record_unknown_question]>
  (<["record_user_details" := PyFunction def_record_user_details]>
  (<["notification_client" := not_callable "PushoverClient"]>
  (<["List" := PyOther "_SpecialGenericAlias" "Type List cannot be instantiated; use list() instead"]>
  (<["Any" := PyOther "_AnyMeta" "Any cannot be instantiated"]>
  (<["Dict" := PyOther "_SpecialGenericAlias" "Type Dict cannot be instantiated; use dict() instead"]>
  (<["json" := not_callable "module"]>
  (<["__builtins__" := not_callable "dict"]>
  (<["__cached__" := not_callable "str"]>
  (<["__file__" := not_callable "str"]>
  (<["__spec__" := not_callable "ModuleSpec"]>
  (<["__loader__" := not_callable "SourceFileLoader"]>
  (<["__package__" := not_callable "str"]>
  (<["__doc__" := not_callable "str"]>
  (<["__name__" := not_callable "str"]> ∅)))))))))))))))).

(** Truthiness of an object of the namespace, as tested by
    [if tool_function:]. *)
Definition obj_truthy (o : pyobj) : bool :=
  match o with
  | PyFunction _ => true
  | PyOther _ _ => true
  end.

(** *** Calls with keyword arguments *)

(** The first keyword that is no parameter of the function. *)
Fixpoint unexpected_keyword (params : list string) (kwargs : list (string * json))
  : option string :=
  match kwargs with
  | [] => None
  | (k, _) :: rest =>
      if bool_decide (k ∈ params) then unexpected_keyword params rest else Some k
  end.

Definition check_keywords (fname : string) (params : list string)
    (kwargs : list (string * json)) : M unit :=
  match unexpected_keyword params kwargs with
  | Some k =>
      raise (Exn TypeError
               (fname +:+ "() got an unexpected keyword argument '" +:+ k +:+ "'"))
  | None => ret tt
  end.

(** A parameter without a default. *)
Definition required (fname param : string) (kwargs : list (string * json)) : M json :=
  match Json.get param kwargs with
  | Some v => ret v
  | None =>
      raise (Exn TypeError
               (fname +:+ "() missing 1 required positional argument: '" +:+ param +:+ "'"))
  end.

(** A parameter with a default. *)
Definition optional (param : string) (default_value : json) (kwargs : list (string * json))
  : json :=
  default default_value (Json.get param kwargs).

(** [record_user_details] called with the keyword arguments [kwargs]. *)
Definition call_record_user_details (kwargs : list (string * json)) : M json :=
  check_keywords "record_user_details" ["email"; "name"; "notes"] kwargs >>
  let* email := required "record_user_details" "email" kwargs in
  record_user_details email
    (optional "name" (JStr "Name not provided") kwargs)
    (optional "notes" (JStr "not provided") kwargs).

(** [record_unknown_question] called with the keyword arguments [kwargs]. *)
Definition call_record_unknown_question (kwargs : list (string * json)) : M json :=
  check_keywords "record_unknown_question" ["question"] kwargs >>
  let* question := required "record_unknown_question" "question" kwargs in
  record_unknown_question question.

(** [get_tool_definitions] called with the keyword arguments [kwargs]. *)
Definition call_get_tool_definitions (kwargs : list (string * json)) : M json :=
  check_keywords "get_tool_definitions" [] kwargs >>
  ret get_tool_definitions.

(** [handle_tool_calls] run on a value decoded from JSON, which is how the
    dispatch below reaches it. The loop reads [tool_call.function] of the
    first item, which no decoded value has; iterating a dict or a text
    gives texts. *)
Definition handle_tool_calls_decoded (tool_calls : json) : M json :=
  let no_function (item_type : string) : M json :=
    raise (Exn AttributeError
             ("'" +:+ item_type +:+ "' object has no attribute 'function'")) in
  match tool_calls with
  | JList [] | JObj [] | JStr EmptyString => ret (JList [])
  | JList (item :: _) => no_function (Json.type_name item)
  | JObj (_ :: _) | JStr (String _ _) => no_function "str"
  | JNull | JBool _ | JNum _ =>
      raise (Exn TypeError
               ("'" +:+ Json.type_name tool_calls +:+ "' object is not iterable"))
  end.

(** [handle_tool_calls] called with the keyword arguments [kwargs]. *)
Definition call_handle_tool_calls (kwargs : list (string * json)) : M json :=
  check_keywords "handle_tool_calls" ["tool_calls"] kwargs >>
  let* tool_calls := required "handle_tool_calls" "tool_calls" kwargs in
  handle_tool_calls_decoded tool_calls.

(** How the interpreter names the callee in the error for [**] of a
    value that is no mapping. *)
Definition callee_text (o : pyobj) : string :=
  match o with
  | PyFunction f => "tools.function_tools." +:+ def_name f +:+ "()"
  | PyOther type_name _ => type_name +:+ " object"
  end.

(** The call of [tool_function] with the items of [arguments] as keyword
    arguments. *)
Definition call (tool_function : pyobj) (arguments : json) : M json :=
  match arguments with
  | JObj kwargs =>
      match tool_function with
      | PyFunction def_record_user_details => call_record_user_details kwargs
      | PyFunction def_record_unknown_question => call_record_unknown_question kwargs
      | PyFunction def_get_tool_definitions => call_get_tool_definitions kwargs
      | PyFunction def_handle_tool_calls => call_handle_tool_calls kwargs
      | PyOther _ call_error => raise (Exn TypeError call_error)
      end
  | _ =>
      raise (Exn TypeError
               (callee_text tool_function +:+ " argument after ** must be a mapping, not "
                  +:+ Json.type_name arguments))
  end.

(** [json.loads(text)] *)
Definition json_loads (text : json_text) : M json :=
  match text with
  | Encoded v => ret v
  | Malformed error => raise (Exn JSONDecodeError error)
  end.

(** The turn [handle_tool_calls] appends for a call. *)
Definition tool_result (result : json) (tool_call : ToolCall) : turn :=
  TDict [("role", JStr "tool");
         ("content", JStr (Json.dumps result));
         ("tool_call_id", JStr (call_id tool_call))].

(** One pass of the [for] loop of [handle_tool_calls]. *)
Definition handle_tool_call (tool_call : ToolCall) : M turn :=
  let tool_name := fn_name (call_function tool_call) in
  let* arguments := json_loads (fn_arguments (call_function tool_call)) in
  print ("Tool called: " +:+ tool_name) >>
  let tool_function := module_globals !! tool_name in
  let* result :=
    match tool_function with
    | Some f =>
        if obj_truthy f then
          try_except (call f arguments) Exception
            (fun e =>
               print ("Error executing tool " +:+ tool_name +:+ ": " +:+ exn_msg e) >>
               ret (JObj [("error", JStr (exn_msg e))]))
        else
          print ("Tool function " +:+ tool_name +:+ " not found") >>
          ret (JObj [("error", JStr ("Tool " +:+ tool_name +:+ " not found"))])
    | None =>
        print ("Tool function " +:+ tool_name +:+ " not found") >>
        ret (JObj [("error", JStr ("Tool " +:+ tool_name +:+ " not found"))])
    end in
  ret (tool_result result tool_call).

Fixpoint handle_tool_calls_from (results : list turn) (tool_calls : list ToolCall)
  : M (list turn) :=
  match tool_calls with
  | [] => ret results
  | tool_call :: rest =>
      let* entry := handle_tool_call tool_call in
      handle_tool_calls_from (results ++ [entry]) rest
  end.

(** [handle_tool_calls]; the attribute [tool_calls] of a message may be
    [None], which the [for] statement cannot iterate. *)
Definition handle_tool_calls (tool_calls : option (list ToolCall)) : M (list turn) :=
  match tool_calls with
  | Some calls => handle_tool_calls_from [] calls
  | None => raise (Exn TypeError "'NoneType' object is not iterable")
  end.

(** ** ai_agent/agent.py *)

Record AIAgent : Type := {
  name : string;
  tools : json;
  linkedin_content : string;
  summary : string
}.

(** What reading the profile document gives: [PdfReader] fails, or there
    are pages, each of which yields its text or fails in [extract_text]. *)
Inductive page : Type :=
| PageText (text : string)
| PageFails (e : exn).

Inductive pdf_document : Type :=
| PdfPages (pages : list page)
| PdfFails (e : exn).


Fixpoint extract_pages (linkedin_content : string) (pages : list page) : M string :=
  match pages with
  | [] => ret linkedin_content
  | PageText text :: rest =>
      extract_pages
        (if Text.nonempty text then linkedin_content +:+ text else linkedin_content) rest
  | PageFails e :: _ =>
      print ("Error extracting LinkedIn content: " +:+ exn_msg e) >>
      ret linkedin_content
  end.

(** [AIAgent._extract_linkedin_content] *)
Definition _extract_linkedin_content (pdf : pdf_document) : M string :=
  match pdf with
  | PdfPages pages => extract_pages "" pages
  | PdfFails e =>
      print ("Error extracting LinkedIn content: " +:+ exn_msg e) >>
      ret ""
  end.


(** The text of the system prompt, from the three texts it is made of. *)
Definition system_prompt_text (name summary linkedin_content : string) : string :=
  let system_prompt :=
    "You are acting as " +:+ name +:+ ". You are answering questions on " +:+ name
    +:+ "'s website, particularly questions related to " +:+ name
    +:+ "'s career, background, skills and experience. Your responsibility is to represent "
    +:+ name +:+ " for interactions on the website as faithfully as possible. "
    +:+ "You are given a summary of " +:+ name
    +:+ "'s background and LinkedIn profile which you can use to answer questions. "
    +:+ "Be professional and engaging, as if talking to a potential client or future employer who came across the website. "
    +:+ "If you don't know the answer to any question, use your record_unknown_question tool to record the question that you couldn't answer, even if it's about something trivial or unrelated to career. "
    +:+ "If the user is engaging in discussion, try to steer them towards getting in touch via email; ask for their email and record it using your record_user_details tool." in
  let system_prompt :=
    system_prompt +:+ Text.nl +:+ Text.nl +:+ "## Summary:" +:+ Text.nl +:+ summary
    +:+ Text.nl +:+ Text.nl +:+ "## LinkedIn Profile:" +:+ Text.nl +:+ linkedin_content
    +:+ Text.nl +:+ Text.nl in
  system_prompt +:+ "With this context, please chat with the user, always staying in character as "
    +:+ name +:+ ".".

(** [AIAgent.get_system_prompt] *)
Definition get_system_prompt (self : AIAgent) : string :=
  system_prompt_text (name self) (summary self) (linkedin_content self).

(** [self.openai_client.chat.completions.create(model, messages, tools)]:
    the request carries the items the list [messages] has at that moment,
    and counts as sent whether the endpoint answers it or fails. *)
Definition completions_create (model : string) (messages : loc) (tools : json)
  : M ChatCompletion :=
  fun w =>
    let request := {| req_model := model;
                      req_messages := default [] (heap w !! messages);
                      req_tools := tools |} in
    let w' := {| heap := heap w; model_log := model_log w ++ [request];
                 http_log := http_log w; console := console w |} in
    match endpoint (length (model_log w)) request with
    | Raises e => (Raise e, w')
    | Returns response => (Ret response, w')
    end.

Definition apology : string :=
  "I apologize, but I encountered an error processing your request. Please try again.".

(** How one pass of the [while] loop ends: [done] stays false, [done]
    becomes true with the last [response], or the function returns. *)
Inductive pass : Type :=
| Again
| Done (response : ChatCompletion)
| Return (value : string).

(** The body of the [while] loop of [_process_conversation]. *)
Definition loop_body (self : AIAgent) (messages : loc) : M pass :=
  try_except
    (let* response := completions_create (openai_model config) messages (tools self) in
     let* choice := index (choices response) 0 in
     if String.eqb (finish_reason choice) "tool_calls" then
       let message := message choice in
       let tool_calls := tool_calls message in
       let* tool_results := handle_tool_calls tool_calls in
       list_append messages (TMessage message) >>
       list_extend messages tool_results >>
       ret Again
     else
       ret (Done response))
    Exception
    (fun e =>
       print ("Error in conversation processing: " +:+ exn_msg e) >>
       ret (Return apology)).

(** The [return] after the loop. *)
Definition final_answer (response : ChatCompletion) : M (option string) :=
  let* choice := index (choices response) 0 in
  ret (content (message choice)).

(** [AIAgent._process_conversation]. The loop has no bound of its own: the
    number of passes to run is an argument, and the result is [None], with
    the world reached, when the loop is still going after that many. *)
Fixpoint _process_conversation (passes : nat) (self : AIAgent) (messages : loc) (w : world)
  : option (result (option string)) * world :=
  match passes with
  | O => (None, w)
  | S passes' =>
      match loop_body self messages w with
      | (Ret Again, w') => _process_conversation passes' self messages w'
      | (Ret (Done response), w') =>
          let (answer, w'') := final_answer response w' in (Some answer, w'')
      | (Ret (Return value), w') => (Some (Ret (Some value)), w')
      | (Raise e, w') => (Some (Raise e), w')
      end
  end.

(** The turns [chat] starts from. *)
Definition system_turn (self : AIAgent) : turn :=
  TDict [("role", JStr "system"); ("content", JStr (get_system_prompt self))].

Definition user_turn (message : string) : turn :=
  TDict [("role", JStr "user"); ("content", JStr message)].

(** [AIAgent.chat] *)
Definition chat (passes : nat) (self : AIAgent) (message : string) (history : loc) (w : world)
  : option (result (option string)) * world :=
  match
    (let* items := read_list history in
     new_list ([system_turn self] ++ items ++ [user_turn message])) w
  with
  | (Ret messages, w') => _process_conversation passes self messages w'
  | (Raise e, w') => (Some (Raise e), w')
  end.

End Program.

(** ** app.py *)

Section App.

Variable config : Config.

(** [os.path.exists], as the file system answers it. *)
Variable path_exists : string -> bool.

(** [for line in lines: print(line)] *)
Fixpoint print_all (lines : list string) : M unit :=
  match lines with
  | [] => ret tt
  | line :: rest => print line >> print_all rest
  end.

(** [validate_environment] *)
Definition validate_environment : M bool :=
  if negb (validate_config config) then
    let missing_vars := get_missing_config config in
    print "Error: Missing required environment variables:" >>
    print_all (map (fun var => "  - " +:+ var) missing_vars) >>
    print (Text.nl +:+ "Please set these variables in your .env file or environment.") >>
    ret false
  else
    ret true.

(** The first loop of [check_required_files]. *)
Fixpoint collect_missing (missing_files file_paths : list string) : list string :=
  match file_paths with
  | [] => missing_files
  | file_path :: rest =>
      collect_missing
        (if negb (path_exists file_path) then missing_files ++ [file_path] else missing_files)
        rest
  end.

(** [check_required_files] *)
Definition check_required_files : M bool :=
  let required_files := [linkedin_pdf_path config; summary_file_path config] in
  let missing_files := collect_missing [] required_files in
  match missing_files with
  | _ :: _ =>
      print "Error: Missing required files:" >>
      print_all (map (fun file_path => "  - " +:+ file_path) missing_files) >>
      print (Text.nl +:+ "Please ensure these files exist in the correct locations.") >>
      ret false
  | [] => ret true
  end.

End App.

(** ** Shapes of the endpoint's responses *)

(** The arguments of every call are JSON text. *)
Definition encoded_calls (calls : list ToolCall) : Prop :=
  Forall (fun c => ∃ v, fn_arguments (call_function c) = Encoded v) calls.

(** The first choice of [response] is [choice]; it says [tool_calls] and
    carries the calls [calls], each with JSON-encoded arguments. *)
Definition requests_tools (response : ChatCompletion) (choice : Choice)
    (calls : list ToolCall) : Prop :=
  choices response !! 0%nat = Some choice ∧
  finish_reason choice = "tool_calls" ∧
  tool_calls (message choice) = Some calls ∧
  encoded_calls calls.

(** The first choice of [response] is [choice], and it does not say
    [tool_calls]. *)
Definition plain_answer (response : ChatCompletion) (choice : Choice) : Prop :=
  choices response !! 0%nat = Some choice ∧
  finish_reason choice ≠ "tool_calls".

(** The turn [handle_tool_calls] answers the call [c] with, for some result. *)
Definition answers (c : ToolCall) (entry : turn) : Prop :=
  ∃ result, entry = tool_result result c.

(** The request [_process_conversation] sends when the list [messages] holds
    [items], and the one it sends next in the world [w]. *)
Definition request_for (config : Config) (self : AIAgent) (items : list turn) : model_request :=
  {| req_model := openai_model config; req_messages := items; req_tools := tools self |}.

Definition next_request (config : Config) (self : AIAgent) (messages : loc) (w : world)
  : model_request :=
  request_for config self (default [] (heap w !! messages)).

(** The list [chat] builds from the items [H] of the history. *)
Definition opening (self : AIAgent) (message : string) (H : list turn) : list turn :=
  [system_turn self] ++ H ++ [user_turn message].

(** The world once the request [request] has gone out. *)
Definition sent (request : model_request) (w : world) : world :=
  {| heap := heap w; model_log := model_log w ++ [request];
     http_log := http_log w; console := console w |}.

(** Between [w] and [w'] every list object other than [messages] is as it
    was, and no list object was created. *)
Definition elsewhere (messages : loc) (w w' : world) : Prop :=
  length (heap w') = length (heap w) ∧
  ∀ l, l ≠ messages → heap w' !! l = heap w !! l.

(** Between [w] and [w'] the list [messages] kept its items, in order, and
    at most gained some at its end. *)
Definition extended (messages : loc) (w w' : world) : Prop :=
  ∀ items, heap w !! messages = Some items →
           ∃ more, heap w' !! messages = Some (items ++ more).

(** The acknowledgement of the two tools. *)
Definition recorded_ok : json := JObj [("recorded", JStr "ok")].

(** [part] occurs in [s]. *)
Definition occurs_in (part s : string) : Prop :=
  ∃ before after, s = before +:+ part +:+ after.

(** Between [w] and [w'] no list object changed and no model request was
    sent. *)
Definition quiet (w w' : world) : Prop :=
  heap w' = heap w ∧ model_log w' = model_log w.

(** What [send_notification] reports for an outcome of the post: false for
    an exception of [requests] and for the statuses 400..599. *)
Definition reported (outcome : post_outcome) : bool :=
  match outcome with
  | PostRaises _ _ => false
  | PostReturns response =>
      negb ((400 <=? status_code response) && (status_code response <? 600))%Z
  end.

(** The post [send_notification] makes. *)
Definition notification_request (self : PushoverClient) (message : string)
    (title : option string) : http_request :=
  {| post_url := api_url self;
     post_data := notification_data self message title;
     post_timeout := 10 |}.

(** The names bound in the namespace of [function_tools]. *)
Definition bound_names : list string :=
  ["__name__"; "__doc__"; "__package__"; "__loader__"; "__spec__"; "__file__";
   "__cached__"; "__builtins__"; "json"; "Dict"; "Any"; "List"; "notification_client";
   "record_user_details"; "record_unknown_question"; "get_tool_definitions";
   "handle_tool_calls"].

(** The result the dispatch gives for a name it does not find. *)
Definition not_found (tool_name : string) : json :=
  JObj [("error", JStr ("Tool " +:+ tool_name +:+ " not found"))].

(** The world once the lines [lines] have been printed. *)
Definition printed (lines : list string) (w : world) : world :=
  {| heap := heap w; model_log := model_log w; http_log := http_log w;
     console := console w ++ lines |}.

(** The texts of the pages that come before the first page that fails. *)
Fixpoint readable_pages (pages : list page) : list string :=
  match pages with
  | PageText text :: rest => text :: readable_pages rest
  | _ => []
  end.

(** The first failure among the pages, if there is one. *)
Fixpoint first_failure (pages : list page) : option exn :=
  match pages with
  | [] => None
  | PageText _ :: rest => first_failure rest
  | PageFails e :: _ => Some e
  end.

(** The texts [texts], one after the other. *)
Definition joined (texts : list string) : string :=
  foldr String.append "" texts.

(** A tool as [get_tool_definitions] describes it to the model: its name,
    the properties of its parameters object and the required ones. *)
Record advertised_tool : Type :=
  { adv_name : string; adv_properties : list string; adv_required : list string }.

Definition field (key : string) (v : json) : option json :=
  match v with
  | JObj items => Json.get key items
  | _ => None
  end.

Definition text_of (v : json) : option string :=
  match v with
  | JStr s => Some s
  | _ => None
  end.

Definition keys_of (v : json) : list string :=
  match v with
  | JObj items => items.*1
  | _ => []
  end.

Definition texts_of (v : json) : list string :=
  match v with
  | JList items => omap text_of items
  | _ => []
  end.

(** The description read off one entry of the list of tools. *)
Definition advertised (entry : json) : option advertised_tool :=
  function ← field "function" entry;
  tool ← field "name" function ≫= text_of;
  parameters ← field "parameters" function;
  properties ← field "properties" parameters;
  required_ones ← field "required" parameters;
  Some {| adv_name := tool;
          adv_properties := keys_of properties;
          adv_required := texts_of required_ones |}.

(** The tools advertised to the model. *)
Definition advertised_tools : list advertised_tool :=
  match get_tool_definitions with
  | JList entries => omap advertised entries
  | _ => []
  end.

(** The arguments [arguments] are an object that has only properties of
    [tool] and all the required ones. *)
Definition conforms (tool : advertised_tool) (arguments : json) : bool :=
  match arguments with
  | JObj kwargs =>
      forallb (fun k => bool_decide (k ∈ adv_properties tool)) kwargs.*1 &&
      forallb (fun r => bool_decide (r ∈ kwargs.*1)) (adv_required tool)
  | _ => false
  end.

(** The requests [requests], in the order sent, all name the configured
    model and the tools of [self]; the first carries [items] and possibly
    more after them, and each later one carries the items of the one before
    it and possibly more after them. *)
Fixpoint chain (config : Config) (self : AIAgent) (items : list turn)
    (requests : list model_request) : Prop :=
  match requests with
  | [] => True
  | request :: rest =>
      req_model request = openai_model config ∧
      req_tools request = tools self ∧
      (∃ more, req_messages request = items ++ more) ∧
      chain config self (req_messages request) rest
  end.

(** Between [w] and [w'] one notification was posted by the module-level
    client, and [f] is one of the two record operations. *)
Definition posts_one (config : Config) (f : pyobj) (w w' : world) : Prop :=
  (f = PyFunction def_record_user_details ∨ f = PyFunction def_record_unknown_question) ∧
  ∃ message title,
    http_log w' = http_log w ++
      [notification_request (notification_client config) message (Some title)].

(** The call names one of the two record operations. *)
Definition names_record_tool (tool_call : ToolCall) : Prop :=
  fn_name (call_function tool_call) ∈ ["record_user_details"; "record_unknown_question"].

(** A post to the Pushover endpoint with the timeout of ten seconds. *)
Definition pushover_post (request : http_request) : Prop :=
  post_url request = "https://api.pushover.net/1/messages.json" ∧ post_timeout request = 10%Z.

(** The arguments of [tool_call] are not JSON text. *)
Definition undecodable (tool_call : ToolCall) : Prop :=
  ∃ error, fn_arguments (call_function tool_call) = Malformed error.

(** ** Test doubles *)

Module Scenario.

Definition getenv (key : string) : option string :=
  if String.eqb key "PUSHOVER_TOKEN" then Some "app-token"
  else if String.eqb key "PUSHOVER_USER" then Some "user-key"
  else None.

(** A configuration with the notification credentials, and one without. *)
Definition configured : Config := _load_settings getenv.
Definition unconfigured : Config := _load_settings (fun _ => None).

Definition agent : AIAgent :=
  {| name := "Ada"; tools := get_tool_definitions;
     linkedin_content := "Profile"; summary := "Summary" |}.

(** A notification endpoint that answers every post with [status]. *)
Definition http_status (status : Z) (reason : string) : nat -> http_request -> post_outcome :=
  fun _ _ => PostReturns {| status_code := status; reason := reason |}.

(** A notification endpoint that cannot be reached. *)
Definition http_down : nat -> http_request -> post_outcome :=
  fun _ _ => PostRaises "ConnectionError" "connection refused".

Definition tool_call (id tool : string) (arguments : json) : ToolCall :=
  {| call_id := id;
     call_function := {| fn_name := tool; fn_arguments := Encoded arguments |} |}.

Definition tools_response (calls : list ToolCall) : ChatCompletion :=
  {| choices := [{| finish_reason := "tool_calls";
                    message := {| content := None; tool_calls := Some calls |} |}] |}.

Definition answer_response (text : string) : ChatCompletion :=
  {| choices := [{| finish_reason := "stop";
                    message := {| content := Some text; tool_calls := None |} |}] |}.

Definition contact_call : ToolCall :=
  tool_call "call_1" "record_user_details" (JObj [("email", JStr "a@b.com")]).

Definition question_call : ToolCall :=
  tool_call "call_2" "record_unknown_question" (JObj [("question", JStr "What is X?")]).

(** A model endpoint that answers at once. *)
Definition endpoint_answers : nat -> model_request -> endpoint_outcome :=
  fun _ _ => Returns (answer_response "Hello").

(** A model endpoint that asks for tools [rounds] times, then answers. *)
Definition endpoint_script (rounds : nat) : nat -> model_request -> endpoint_outcome :=
  fun k _ =>
    if (k <? rounds)%nat then Returns (tools_response [contact_call; question_call])
    else Returns (answer_response "Done").

(** A model endpoint that asks for tools for ever. *)
Definition endpoint_insists : nat -> model_request -> endpoint_outcome :=
  fun _ _ => Returns (tools_response [question_call]).

(** A model endpoint that asks for tools [rounds] times, then fails. *)
Definition endpoint_breaks (rounds : nat) : nat -> model_request -> endpoint_outcome :=
  fun k _ =>
    if (k <? rounds)%nat then Returns (tools_response [question_call])
    else Raises (Exn (OtherException "APIConnectionError") "Connection error.").

(** A world in which the front end holds a history of two turns. *)
Definition earlier : list turn :=
  [TDict [("role", JStr "user"); ("content", JStr "Hi")];
   TDict [("role", JStr "assistant"); ("content", JStr "Hello, how can I help?")]].

Definition start : world :=
  {| heap := [earlier]; model_log := []; http_log := []; console := [] |}.

(** A configuration whose API key is set, and one whose token is set to
    the empty text. *)
Definition with_key : Config :=
  _load_settings (fun key => if String.eqb key "OPENAI_API_KEY" then Some "sk-test" else None).

Definition empty_token : Config :=
  _load_settings (fun key =>
    if String.eqb key "PUSHOVER_TOKEN" then Some ""
    else if String.eqb key "PUSHOVER_USER" then Some "user-key"
    else None).

(** A file system in which only the summary file is there. *)
Definition only_summary (path : string) : bool := String.eqb path "me/summary.txt".

(** A call whose arguments are not JSON text. *)
Definition broken_call : ToolCall :=
  {| call_id := "call_9";
     call_function := {| fn_name := "record_unknown_question";
                         fn_arguments := Malformed "Expecting value: line 1 column 1 (char 0)" |} |}.

(** A model endpoint that always asks for a call with broken arguments
    after a good one. *)
Definition endpoint_garbles : nat -> model_request -> endpoint_outcome :=
  fun _ _ => Returns (tools_response [question_call; broken_call]).

(** A model endpoint that answers, yet lists a call in its message. *)
Definition endpoint_stops_with_call : nat -> model_request -> endpoint_outcome :=
  fun _ _ =>
    Returns {| choices := [{| finish_reason := "stop";
                              message := {| content := Some "Hello";
                                            tool_calls := Some [contact_call] |} |}] |}.

End Scenario.

(** * Properties *)

Local Close Scope Z_scope.

(** ** Text *)

Lemma append_cons (x : ascii) (a b : string) : String x a +:+ b = String x (a +:+ b).
Proof. reflexivity. Qed.

Lemma append_empty_r (a : string) : a +:+ "" = a.
Proof.
  induction a as [|x a IH]; [reflexivity |].
  by rewrite append_cons, IH.
Qed.

Lemma prefix_append (a b : string) : String.prefix a (a +:+ b) = true.
Proof.
  induction a as [|x a IH].
  - by destruct b.
  - rewrite append_cons. simpl.
    destruct (ascii_dec x x) as [_|Hne]; [apply IH | by destruct Hne].
Qed.

Lemma contains_unfold (part s : string) :
  Text.contains part s =
  String.prefix part s ||
  match s with EmptyString => false | String _ rest => Text.contains part rest end.
Proof. by destruct s. Qed.

Lemma contains_append (part before after : string) :
  Text.contains part (before +:+ part +:+ after) = true.
Proof.
  induction before as [|x before IH].
  - change ("" +:+ part +:+ after) with (part +:+ after).
    rewrite contains_unfold, prefix_append. reflexivity.
  - rewrite append_cons, contains_unfold, IH. apply orb_true_r.
Qed.

Lemma occurs_in_contains (part s : string) :
  occurs_in part s → Text.contains part s = true.
Proof. intros (before & after & ->). apply contains_append. Qed.

(** ** Computations that leave the lists and the model requests alone *)

Section Frames.

Variable endpoint : nat -> model_request -> endpoint_outcome.
Variable http : nat -> http_request -> post_outcome.
Variable config : Config.

Lemma quiet_refl w : quiet w w.
Proof. by split. Qed.

Lemma quiet_trans w1 w2 w3 : quiet w1 w2 → quiet w2 w3 → quiet w1 w3.
Proof. intros [? ?] [? ?]. split; congruence. Qed.

Lemma print_quiet line w : ∃ w', print line w = (Ret tt, w') ∧ quiet w w'.
Proof. eexists. split; [reflexivity | by split]. Qed.

End Frames.

(** ** The notification sender *)

Section Notifications.

Variable http : nat -> http_request -> post_outcome.

Lemma send_notification_unconfigured self message title w :
  opt_truthy (token self) = false ∨ opt_truthy (user self) = false →
  ∃ w', send_notification http self message title w = (Ret true, w') ∧
        http_log w' = http_log w ∧ quiet w w'.
Proof.
  intros Hcred. unfold send_notification.
  assert (negb (opt_truthy (token self)) || negb (opt_truthy (user self)) = true) as ->.
  { destruct Hcred as [-> | ->]; [reflexivity | apply orb_true_r]. }
  eexists. split; [reflexivity |]. by repeat split.
Qed.

Lemma send_notification_configured self message title w :
  opt_truthy (token self) = true →
  opt_truthy (user self) = true →
  let request := notification_request self message title in
  ∃ w', send_notification http self message title w
          = (Ret (reported (http (length (http_log w)) request)), w') ∧
        http_log w' = http_log w ++ [request] ∧ quiet w w'.
Proof.
  intros Htoken Huser request. unfold send_notification.
  rewrite Htoken, Huser. simpl.
  unfold try_except, bind, requests_post.
  fold (notification_request self message title). fold request.
  destruct (http (length (http_log w)) request) as [kind msg | response]; simpl.
  - eexists. split; [reflexivity |]. by repeat split.
  - unfold raise_for_status.
    destruct ((400 <=? status_code response)%Z && (status_code response <? 500)%Z) eqn:Hclient.
    + assert (((400 <=? status_code response) && (status_code response <? 600))%Z = true) as ->
        by lia.
      eexists. split; [reflexivity |]. by repeat split.
    + destruct ((500 <=? status_code response)%Z && (status_code response <? 600)%Z) eqn:Hserver.
      * assert (((400 <=? status_code response) && (status_code response <? 600))%Z = true) as ->
          by lia.
        eexists. split; [reflexivity |]. by repeat split.
      * assert (((400 <=? status_code response) && (status_code response <? 600))%Z = false) as ->
          by lia.
        eexists. split; [reflexivity |]. by repeat split.
Qed.

Lemma send_notification_returns self message title w :
  ∃ b w', send_notification http self message title w = (Ret b, w') ∧ quiet w w'.
Proof.
  destruct (opt_truthy (token self)) eqn:Htoken.
  - destruct (opt_truthy (user self)) eqn:Huser.
    + destruct (send_notification_configured self message title w Htoken Huser)
        as (w' & Hrun & _ & Hquiet).
      eauto.
    + destruct (send_notification_unconfigured self message title w) as (w' & Hrun & _ & Hquiet);
        eauto.
  - destruct (send_notification_unconfigured self message title w) as (w' & Hrun & _ & Hquiet);
      eauto.
Qed.

End Notifications.

(** ** The callback tools and their dispatch *)

Section Tools.

Variable http : nat -> http_request -> post_outcome.
Variable config : Config.

Lemma record_user_details_returns email name notes w :
  ∃ w', record_user_details http config email name notes w = (Ret recorded_ok, w') ∧
        quiet w w'.
Proof.
  unfold record_user_details, send_user_registration, bind.
  destruct (send_notification_returns http (notification_client config)
              (user_registration_message name email notes) (Some "User Registration") w)
    as (b & w' & -> & Hquiet).
  eauto.
Qed.

Lemma record_unknown_question_returns question w :
  ∃ w', record_unknown_question http config question w = (Ret recorded_ok, w') ∧
        quiet w w'.
Proof.
  unfold record_unknown_question, send_unknown_question, bind.
  destruct (send_notification_returns http (notification_client config)
              (unknown_question_message question) (Some "Unknown Question") w)
    as (b & w' & -> & Hquiet).
  eauto.
Qed.

Lemma check_keywords_quiet fname params kwargs w :
  ∃ r, check_keywords fname params kwargs w = (r, w).
Proof. unfold check_keywords. destruct (unexpected_keyword params kwargs); eauto. Qed.

Lemma required_quiet fname param kwargs w :
  ∃ r, required fname param kwargs w = (r, w).
Proof. unfold required. destruct (Json.get param kwargs); eauto. Qed.

Lemma call_quiet tool_function arguments w :
  ∃ r w', call http config tool_function arguments w = (r, w') ∧ quiet w w'.
Proof.
  pose proof (quiet_refl w) as Hw.
  destruct arguments as [| b | n | s | items | kwargs]; try (by eexists _, _).
  destruct tool_function as [[] | type_name call_error]; simpl;
    try (by eexists _, _).
  - unfold call_record_user_details, bind.
    destruct (check_keywords_quiet "record_user_details" ["email"; "name"; "notes"] kwargs w)
      as [[[] | e] ->]; [| by eexists _, _].
    destruct (required_quiet "record_user_details" "email" kwargs w)
      as [[email | e] ->]; [| by eexists _, _].
    destruct (record_user_details_returns email
                (optional "name" (JStr "Name not provided") kwargs)
                (optional "notes" (JStr "not provided") kwargs) w) as (w' & -> & Hquiet).
    eauto.
  - unfold call_record_unknown_question, bind.
    destruct (check_keywords_quiet "record_unknown_question" ["question"] kwargs w)
      as [[[] | e] ->]; [| by eexists _, _].
    destruct (required_quiet "record_unknown_question" "question" kwargs w)
      as [[question | e] ->]; [| by eexists _, _].
    destruct (record_unknown_question_returns question w) as (w' & -> & Hquiet).
    eauto.
  - unfold call_get_tool_definitions, bind.
    destruct (check_keywords_quiet "get_tool_definitions" [] kwargs w)
      as [[[] | e] ->]; by eexists _, _.
  - unfold call_handle_tool_calls, bind.
    destruct (check_keywords_quiet "handle_tool_calls" ["tool_calls"] kwargs w)
      as [[[] | e] ->]; [| by eexists _, _].
    destruct (required_quiet "handle_tool_calls" "tool_calls" kwargs w)
      as [[tool_calls | e] ->]; [| by eexists _, _].
    unfold handle_tool_calls_decoded.
    destruct tool_calls as [| b | n | [|c s] | [|item items] | [|item items]];
      by eexists _, _.
Qed.

(** The result a call is answered with, whatever the tool did. *)
Lemma handle_tool_call_encoded tool_call v w :
  fn_arguments (call_function tool_call) = Encoded v →
  ∃ result w',
    handle_tool_call http config tool_call w = (Ret (tool_result result tool_call), w') ∧
    quiet w w'.
Proof.
  intros Hargs. unfold handle_tool_call. rewrite Hargs.
  unfold bind at 1. simpl. unfold bind at 1. simpl.
  set (w1 := {| heap := heap w; model_log := model_log w; http_log := http_log w;
                console := console w ++ _ |}).
  assert (quiet w w1) as Hw1 by (by split).
  destruct (module_globals !! fn_name (call_function tool_call)) as [f |].
  - destruct (obj_truthy f).
    + unfold bind, try_except.
      destruct (call_quiet f v w1) as ([result | e] & w2 & -> & Hquiet); simpl.
      * exists result, w2. split; [reflexivity | by eapply quiet_trans].
      * eexists _, _. split; [reflexivity |].
        eapply quiet_trans; [exact Hw1 |]. eapply quiet_trans; [exact Hquiet |]. by split.
    + eexists _, _. split; [reflexivity |]. eapply quiet_trans; [exact Hw1 | by split].
  - eexists _, _. split; [reflexivity |]. eapply quiet_trans; [exact Hw1 | by split].
Qed.

Lemma handle_tool_call_quiet tool_call w :
  ∃ r w', handle_tool_call http config tool_call w = (r, w') ∧ quiet w w'.
Proof.
  destruct (fn_arguments (call_function tool_call)) as [v | error] eqn:Hargs.
  - destruct (handle_tool_call_encoded tool_call v w Hargs) as (result & w' & -> & Hquiet).
    eauto.
  - unfold handle_tool_call. rewrite Hargs. eexists _, _. split; [reflexivity | by split].
Qed.

Lemma handle_tool_calls_from_quiet tool_calls results w :
  ∃ r w', handle_tool_calls_from http config results tool_calls w = (r, w') ∧ quiet w w'.
Proof.
  revert results w. induction tool_calls as [| tool_call rest IH]; intros results w.
  - eexists _, _. split; [reflexivity | by split].
  - simpl. unfold bind.
    destruct (handle_tool_call_quiet tool_call w) as ([entry | e] & w1 & -> & Hw1).
    + destruct (IH (results ++ [entry]) w1) as (r & w2 & -> & Hw2).
      eexists _, _. split; [reflexivity | by eapply quiet_trans].
    + eauto.
Qed.

(** One result per call, in the order of the calls, each with the
    identifier of its call. *)
Lemma handle_tool_calls_from_encoded tool_calls results w :
  encoded_calls tool_calls →
  ∃ entries w',
    handle_tool_calls_from http config results tool_calls w = (Ret (results ++ entries), w') ∧
    Forall2 answers tool_calls entries ∧
    quiet w w'.
Proof.
  intros Hencoded. revert results w.
  induction Hencoded as [| tool_call rest [v Hv] _ IH]; intros results w.
  - exists [], w. rewrite app_nil_r. repeat split; constructor.
  - simpl. unfold bind.
    destruct (handle_tool_call_encoded tool_call v w Hv) as (result & w1 & -> & Hw1).
    destruct (IH (results ++ [tool_result result tool_call]) w1)
      as (entries & w2 & -> & Hentries & Hw2).
    exists (tool_result result tool_call :: entries), w2.
    rewrite <- app_assoc. repeat split.
    + constructor; [by exists result | done].
    + destruct Hw1, Hw2. congruence.
    + destruct Hw1, Hw2. congruence.
Qed.

End Tools.

(** ** The tool-call loop *)

Section Loop.

Variable endpoint : nat -> model_request -> endpoint_outcome.
Variable http : nat -> http_request -> post_outcome.
Variable config : Config.
Variable self : AIAgent.
Variable messages : loc.

Lemma elsewhere_refl w : elsewhere messages w w.
Proof. by split. Qed.

Lemma elsewhere_trans w1 w2 w3 :
  elsewhere messages w1 w2 → elsewhere messages w2 w3 → elsewhere messages w1 w3.
Proof.
  intros [Hlen1 Hl1] [Hlen2 Hl2]. split; [congruence |].
  intros l Hl. by rewrite Hl2, Hl1.
Qed.

Lemma completions_create_run w :
  completions_create endpoint (openai_model config) messages (tools self) w =
  (match endpoint (length (model_log w)) (next_request config self messages w) with
   | Raises e => Raise e
   | Returns response => Ret response
   end, sent (next_request config self messages w) w).
Proof.
  unfold completions_create.
  fold (request_for config self (default [] (heap w !! messages))).
  fold (next_request config self messages w).
  by destruct (endpoint _ _).
Qed.

(** A failing request ends the conversation with the apology. *)
Lemma loop_body_raises w e :
  endpoint (length (model_log w)) (next_request config self messages w) = Raises e →
  ∃ w', loop_body endpoint http config self messages w = (Ret (Return apology), w') ∧
        model_log w' = model_log w ++ [next_request config self messages w] ∧
        heap w' = heap w.
Proof.
  intros Hfails. unfold loop_body, try_except, bind at 1.
  rewrite completions_create_run, Hfails. simpl.
  eexists. split; [reflexivity |]. by split.
Qed.

(** A response without choices does the same. *)
Lemma loop_body_no_choice w response :
  endpoint (length (model_log w)) (next_request config self messages w) = Returns response →
  choices response = [] →
  ∃ w', loop_body endpoint http config self messages w = (Ret (Return apology), w') ∧
        model_log w' = model_log w ++ [next_request config self messages w] ∧
        heap w' = heap w.
Proof.
  intros Hreturns Hnone. unfold loop_body, try_except, bind at 1.
  rewrite completions_create_run, Hreturns. unfold bind at 1, index.
  rewrite Hnone. simpl.
  eexists. split; [reflexivity |]. by split.
Qed.

(** A plain answer ends the loop. *)
Lemma loop_body_answer w response choice :
  endpoint (length (model_log w)) (next_request config self messages w) = Returns response →
  plain_answer response choice →
  loop_body endpoint http config self messages w =
  (Ret (Done response), sent (next_request config self messages w) w).
Proof.
  intros Hreturns [Hchoice Hreason]. unfold loop_body, try_except, bind at 1.
  rewrite completions_create_run, Hreturns. unfold bind at 1, index.
  rewrite Hchoice. simpl.
  apply String.eqb_neq in Hreason. by rewrite Hreason.
Qed.

(** A request for tools: the assistant message and the results are
    appended, and the loop goes on. *)
Lemma loop_body_tools w items response choice calls :
  heap w !! messages = Some items →
  endpoint (length (model_log w)) (next_request config self messages w) = Returns response →
  requests_tools response choice calls →
  ∃ entries w',
    loop_body endpoint http config self messages w = (Ret Again, w') ∧
    model_log w' = model_log w ++ [next_request config self messages w] ∧
    heap w' !! messages = Some (items ++ TMessage (message choice) :: entries) ∧
    Forall2 answers calls entries ∧
    elsewhere messages w w'.
Proof.
  intros Hitems Hreturns (Hchoice & Hreason & Hcalls & Hencoded).
  unfold loop_body, try_except, bind at 1.
  rewrite completions_create_run, Hreturns. unfold bind at 1, index.
  rewrite Hchoice. simpl.
  apply String.eqb_eq in Hreason. rewrite Hreason, Hcalls. unfold handle_tool_calls, bind at 1.
  destruct (handle_tool_calls_from_encoded http config calls []
              (sent (next_request config self messages w) w) Hencoded)
    as (entries & w1 & -> & Hentries & Hheap & Hlog).
  simpl in Hheap, Hlog.
  exists entries. eexists. split; [reflexivity |]. simpl. rewrite Hheap.
  split; [exact Hlog |]. split; [| split; [exact Hentries |]].
  - rewrite !list_lookup_alter_eq, Hitems. simpl. by rewrite <- app_assoc.
  - unfold elsewhere. simpl. split; [by rewrite !length_alter |].
    intros l Hl. by rewrite !list_lookup_alter_ne.
Qed.

(** Between [w] and [w'] the list [messages] only gained items at its end. *)
Lemma extended_refl w : extended messages w w.
Proof. intros items Hitems. exists []. by rewrite app_nil_r. Qed.

Lemma extended_same w w' : heap w' = heap w → extended messages w w'.
Proof. intros Hheap items Hitems. exists []. by rewrite app_nil_r, Hheap. Qed.

Lemma extended_trans w1 w2 w3 :
  extended messages w1 w2 → extended messages w2 w3 → extended messages w1 w3.
Proof.
  intros H12 H23 items Hitems.
  destruct (H12 items Hitems) as [more Hmore].
  destruct (H23 _ Hmore) as [more' Hmore'].
  exists (more ++ more'). by rewrite app_assoc.
Qed.

(** Whatever the endpoint does, a pass sends one request, raises nothing,
    and touches no list but [messages], which it only extends; when it ends
    the loop normally, the response has a first choice. *)
Lemma loop_body_pass w :
  ∃ p w',
    loop_body endpoint http config self messages w = (Ret p, w') ∧
    model_log w' = model_log w ++ [next_request config self messages w] ∧
    elsewhere messages w w' ∧
    extended messages w w' ∧
    (∀ response, p = Done response → ∃ choice, choices response !! 0 = Some choice).
Proof.
  destruct (endpoint (length (model_log w)) (next_request config self messages w))
    as [e | response] eqn:Houtcome.
  - destruct (loop_body_raises w e Houtcome) as (w' & -> & Hlog & Hheap).
    eexists _, _. split; [reflexivity |]. split; [exact Hlog |].
    split; [split; by rewrite Hheap |]. split; [by apply extended_same | discriminate].
  - destruct (choices response) as [| choice rest] eqn:Hchoices.
    + destruct (loop_body_no_choice w response Houtcome Hchoices) as (w' & -> & Hlog & Hheap).
      eexists _, _. split; [reflexivity |]. split; [exact Hlog |].
      split; [split; by rewrite Hheap |]. split; [by apply extended_same | discriminate].
    + destruct (decide (finish_reason choice = "tool_calls")) as [Hreason | Hreason].
      * (* tool calls: the results are appended, or a failure is caught *)
        unfold loop_body, try_except, bind at 1.
        rewrite completions_create_run, Houtcome. unfold bind at 1, index.
        rewrite Hchoices. simpl.
        apply String.eqb_eq in Hreason. rewrite Hreason.
        unfold handle_tool_calls, bind at 1.
        destruct (tool_calls (message choice)) as [calls |].
        -- destruct (handle_tool_calls_from_quiet http config calls []
                       (sent (next_request config self messages w) w))
             as ([entries | e] & w1 & -> & Hheap & Hlog); simpl in Hheap, Hlog.
           ++ eexists _, _. split; [reflexivity |]. simpl. rewrite Hheap.
              split; [exact Hlog |]. split; [| split; [| discriminate]].
              ** unfold elsewhere. simpl.
                 split; [by rewrite !length_alter |].
                 intros l Hl. by rewrite !list_lookup_alter_ne.
              ** intros items Hitems. simpl.
                 rewrite !list_lookup_alter_eq, Hitems. simpl.
                 eexists. by rewrite <- app_assoc.
           ++ eexists _, _. split; [reflexivity |]. simpl.
              split; [exact Hlog |]. split; [split; by rewrite Hheap |].
              split; [by apply extended_same | discriminate].
        -- eexists _, _. split; [reflexivity |]. simpl.
           split; [reflexivity |]. split; [by split |].
           split; [by apply extended_same | discriminate].
      * rewrite (loop_body_answer w response choice Houtcome).
        -- eexists _, _. split; [reflexivity |]. split; [reflexivity |].
           split; [by split |]. split; [by apply extended_same |].
           intros ? [= <-]. exists choice. by rewrite Hchoices.
        -- split; [by rewrite Hchoices | exact Hreason].
Qed.

End Loop.

(** ** The conversation *)

Section Conversation.

Variable endpoint : nat -> model_request -> endpoint_outcome.
Variable http : nat -> http_request -> post_outcome.
Variable config : Config.
Variable self : AIAgent.

Local Abbreviation process := (_process_conversation endpoint http config).
Local Abbreviation body := (loop_body endpoint http config self).

Lemma final_answer_run response choice w :
  choices response !! 0 = Some choice →
  final_answer response w = (Ret (content (message choice)), w).
Proof. intros Hchoice. unfold final_answer, bind, index. by rewrite Hchoice. Qed.

(** However many passes are run, the loop raises nothing, only sends
    requests, and touches no list but [messages]. *)
Lemma process_conversation_run passes messages w :
  ∃ r w' requests,
    process passes self messages w = (r, w') ∧
    model_log w' = model_log w ++ requests ∧
    length requests ≤ passes ∧
    elsewhere messages w w' ∧
    extended messages w w' ∧
    (∀ e, r ≠ Some (Raise e)).
Proof.
  revert w. induction passes as [| passes IH]; intros w.
  - exists None, w, []. rewrite app_nil_r.
    split; [reflexivity |]. split; [reflexivity |]. split; [simpl; lia |].
    split; [apply elsewhere_refl |]. split; [apply extended_refl | discriminate].
  - simpl.
    destruct (loop_body_pass endpoint http config self messages w)
      as (p & w1 & -> & Hlog & Hframe & Hgrow & Hdone).
    destruct p as [| response | value].
    + destruct (IH w1) as (r & w2 & requests & -> & Hlog2 & Hlen & Hframe2 & Hgrow2 & Hr).
      exists r, w2, (next_request config self messages w :: requests).
      split; [reflexivity |]. rewrite Hlog2, Hlog, <- app_assoc.
      split; [reflexivity |]. split; [simpl; lia |].
      split; [by eapply elsewhere_trans |].
      split; [by eapply extended_trans | exact Hr].
    + destruct (Hdone response eq_refl) as [choice Hchoice].
      rewrite (final_answer_run response choice w1 Hchoice).
      eexists _, w1, [_]. split; [reflexivity |]. split; [exact Hlog |].
      split; [simpl; lia |]. split; [exact Hframe |]. split; [exact Hgrow | discriminate].
    + eexists _, w1, [_]. split; [reflexivity |]. split; [exact Hlog |].
      split; [simpl; lia |]. split; [exact Hframe |]. split; [exact Hgrow | discriminate].
Qed.

(** More passes change nothing once the loop has ended. *)
Lemma process_conversation_more passes more messages w r w' :
  process passes self messages w = (Some r, w') →
  process (passes + more) self messages w = (Some r, w').
Proof.
  revert w. induction passes as [| passes IH]; intros w Hrun; [discriminate |].
  simpl in *.
  destruct (body messages w) as [[[| response | value] | e] w1]; try exact Hrun.
  by apply IH.
Qed.

(** The first request of a run is the one for the items [messages] has
    at the start. *)
Lemma process_conversation_first passes messages w :
  ∃ later,
    model_log (process (S passes) self messages w).2 =
    model_log w ++ next_request config self messages w :: later.
Proof.
  simpl.
  destruct (loop_body_pass endpoint http config self messages w)
    as (p & w1 & -> & Hlog & _ & _ & Hdone).
  destruct p as [| response | value].
  - destruct (process_conversation_run passes messages w1)
      as (r & w2 & requests & -> & Hlog2 & _).
    exists requests. simpl. by rewrite Hlog2, Hlog, <- app_assoc.
  - destruct (Hdone response eq_refl) as [choice Hchoice].
    rewrite (final_answer_run response choice w1 Hchoice).
    exists []. exact Hlog.
  - exists []. exact Hlog.
Qed.

(** A run that is still going can be taken up where it stands. *)
Lemma process_conversation_resume passes more messages w wk :
  process passes self messages w = (None, wk) →
  process (passes + more) self messages w = process more self messages wk.
Proof.
  revert w. induction passes as [| passes IH]; intros w Hrun.
  - by injection Hrun as <-.
  - simpl in *.
    destruct (body messages w) as [[[| response | value] | e] w1]; try discriminate.
    + by apply IH.
    + by destruct (final_answer response w1).
Qed.

(** Tool requests for [rounds] passes, then a plain answer. *)
Lemma process_conversation_script rounds : ∀ messages w items final choice,
  heap w !! messages = Some items →
  (∀ k request, k < rounds →
     ∃ response asked calls,
       endpoint (length (model_log w) + k) request = Returns response ∧
       requests_tools response asked calls) →
  (∀ request, endpoint (length (model_log w) + rounds) request = Returns final) →
  plain_answer final choice →
  ∃ w', process (S rounds) self messages w = (Some (Ret (content (message choice))), w') ∧
        length (model_log w') = length (model_log w) + S rounds.
Proof.
  induction rounds as [| rounds IH]; intros messages w items final choice Hitems Htools Hfinal Hplain.
  - simpl.
    rewrite (loop_body_answer endpoint http config self messages w final choice).
    + rewrite (final_answer_run final choice _ (proj1 Hplain)).
      eexists. split; [reflexivity |]. simpl. rewrite length_app. simpl. lia.
    + rewrite <- (Hfinal (next_request config self messages w)). f_equal. lia.
    + exact Hplain.
  - destruct (Htools 0 (next_request config self messages w)) as
      (response & asked & calls & Hreturns & Hasked); [lia |].
    rewrite Nat.add_0_r in Hreturns.
    destruct (loop_body_tools endpoint http config self messages w items response asked calls
                Hitems Hreturns Hasked) as (entries & w1 & Hbody & Hlog & Hitems1 & _ & _).
    assert (length (model_log w1) = S (length (model_log w))) as Hlen.
    { rewrite Hlog, length_app. simpl. lia. }
    destruct (IH messages w1 _ final choice Hitems1) as (w' & Hrun & Hlen').
    + intros k request Hk. rewrite Hlen.
      destruct (Htools (S k) request) as (r & a & c & Hr & Ha); [lia |].
      exists r, a, c. split; [| exact Ha]. rewrite <- Hr. f_equal. lia.
    + intros request. rewrite Hlen, <- (Hfinal request). f_equal. lia.
    + exact Hplain.
    + exists w'. split; [| lia].
      change (process (S (S rounds)) self messages w) with
        (match body messages w with
         | (Ret Again, w') => process (S rounds) self messages w'
         | (Ret (Done response), w') =>
             let (answer, w'') := final_answer response w' in (Some answer, w'')
         | (Ret (Return value), w') => (Some (Ret (Some value)), w')
         | (Raise e, w') => (Some (Raise e), w')
         end).
      rewrite Hbody. exact Hrun.
Qed.

(** Tool requests for ever: the loop is still going after any number of
    passes, and has sent that many requests. *)
Lemma process_conversation_forever passes : ∀ messages w items,
  heap w !! messages = Some items →
  (∀ k request,
     ∃ response asked calls,
       endpoint (length (model_log w) + k) request = Returns response ∧
       requests_tools response asked calls) →
  ∃ w', process passes self messages w = (None, w') ∧
        length (model_log w') = length (model_log w) + passes.
Proof.
  induction passes as [| passes IH]; intros messages w items Hitems Htools.
  - exists w. split; [reflexivity | lia].
  - destruct (Htools 0 (next_request config self messages w)) as
      (response & asked & calls & Hreturns & Hasked).
    rewrite Nat.add_0_r in Hreturns.
    destruct (loop_body_tools endpoint http config self messages w items response asked calls
                Hitems Hreturns Hasked) as (entries & w1 & Hbody & Hlog & Hitems1 & _ & _).
    assert (length (model_log w1) = S (length (model_log w))) as Hlen.
    { rewrite Hlog, length_app. simpl. lia. }
    destruct (IH messages w1 _ Hitems1) as (w' & Hrun & Hlen').
    + intros k request. rewrite Hlen.
      destruct (Htools (S k) request) as (r & a & c & Hr & Ha).
      exists r, a, c. split; [| exact Ha]. rewrite <- Hr. f_equal. lia.
    + exists w'. split; [| lia]. simpl. rewrite Hbody. exact Hrun.
Qed.

(** [chat] builds its list and runs the loop on it. *)
Lemma chat_start passes message history w :
  chat endpoint http config passes self message history w =
  process passes self (length (heap w))
    (set_heap (heap w ++ [opening self message (default [] (heap w !! history))]) w).
Proof. reflexivity. Qed.

Lemma opening_allocated message H w :
  heap (set_heap (heap w ++ [opening self message H]) w) !! length (heap w) =
  Some (opening self message H).
Proof. simpl. by rewrite list_lookup_middle. Qed.

End Conversation.

(** ** The model at work *)

(** The JSON text of the not-found error. *)
Example not_found_text :
  Json.dumps (not_found "lookup_weather") =
  "{" +:+ Text.dquote +:+ "error" +:+ Text.dquote +:+ ": "
      +:+ Text.dquote +:+ "Tool lookup_weather not found" +:+ Text.dquote +:+ "}".
Proof. reflexivity. Qed.

(** Two tool rounds and an answer: three requests, two notifications. *)
Example two_rounds :
  let run := chat (Scenario.endpoint_script 2) (Scenario.http_status 200 "OK")
               Scenario.configured 5 Scenario.agent "Hi" 0 Scenario.start in
  run.1 = Some (Ret (Some "Done")) ∧
  length (model_log run.2) = 3 ∧
  length (http_log run.2) = 4 ∧
  length <$> heap run.2 = [2; 10].
Proof. vm_compute. by repeat split. Qed.

(** A requested call whose arguments are not JSON text is no tool-call
    request in the sense of [requests_tools]: decoding raises inside the
    [try], the message list stays as it is, and the apology is returned. *)
Example malformed_arguments :
  let call := {| call_id := "call_9";
                 call_function := {| fn_name := "record_unknown_question";
                                     fn_arguments := Malformed "Expecting value" |} |} in
  let endpoint : nat → model_request → endpoint_outcome :=
    fun _ _ => Returns (Scenario.tools_response [call]) in
  let run := chat endpoint (Scenario.http_status 200 "OK")
               Scenario.configured 5 Scenario.agent "Hi" 0 Scenario.start in
  run.1 = Some (Ret (Some apology)) ∧
  length (model_log run.2) = 1 ∧
  heap run.2 !! 1 = Some (opening Scenario.agent "Hi" Scenario.earlier).
Proof. vm_compute. by repeat split. Qed.

(** * The claims *)

(** C1. For every history and every user message, the first request [chat]
    sends to the model endpoint carries exactly the system turn, then the
    items of the history, then the user turn with the message; the content of
    the system turn is a function of the agent's name, the summary text and
    the profile text, and of nothing else. *)
Theorem chat_first_request endpoint http config passes self message history H w :
  heap w !! history = Some H →
  (∃ later,
     model_log (chat endpoint http config (S passes) self message history w).2 =
     model_log w ++
       request_for config self ([system_turn self] ++ H ++ [user_turn message]) :: later) ∧
  system_turn self =
    TDict [("role", JStr "system");
           ("content",
            JStr (system_prompt_text (name self) (summary self) (linkedin_content self)))] ∧
  user_turn message = TDict [("role", JStr "user"); ("content", JStr message)].
Proof.
  intros HH. split; [| by split].
  rewrite chat_start, HH. simpl default.
  destruct (process_conversation_first endpoint http config self passes (length (heap w))
              (set_heap (heap w ++ [opening self message H]) w)) as [later Hlater].
  exists later. rewrite Hlater. unfold next_request.
  by rewrite opening_allocated.
Qed.

Lemma chat_first_request_witness :
  ∃ later,
    model_log (chat Scenario.endpoint_answers (Scenario.http_status 200 "OK")
                 Scenario.configured 1 Scenario.agent "Where did you work?" 0
                 Scenario.start).2 =
    model_log Scenario.start ++
      request_for Scenario.configured Scenario.agent
        ([system_turn Scenario.agent] ++ Scenario.earlier
           ++ [user_turn "Where did you work?"]) :: later.
Proof.
  exact (proj1 (chat_first_request Scenario.endpoint_answers (Scenario.http_status 200 "OK")
                  Scenario.configured 0 Scenario.agent "Where did you work?" 0
                  Scenario.earlier Scenario.start eq_refl)).
Defined.

(** C2. In a pass of the loop in which the endpoint requests tool calls,
    exactly one request goes out, and the message list gains the assistant
    turn of the response followed by one tool-result turn per requested call,
    in the order of the calls and each with the identifier of its call; the
    items it had stay in place, no other list changes, and the next pass
    sends the list so extended. *)
Theorem tool_round_extends_messages endpoint http config self messages w items
    response choice calls :
  heap w !! messages = Some items →
  endpoint (length (model_log w)) (request_for config self items) = Returns response →
  requests_tools response choice calls →
  ∃ entries w',
    loop_body endpoint http config self messages w = (Ret Again, w') ∧
    model_log w' = model_log w ++ [request_for config self items] ∧
    heap w' !! messages = Some (items ++ [TMessage (message choice)] ++ entries) ∧
    length entries = length calls ∧
    Forall2 answers calls entries ∧
    elsewhere messages w w' ∧
    next_request config self messages w' =
      request_for config self (items ++ [TMessage (message choice)] ++ entries) ∧
    ∀ passes,
      _process_conversation endpoint http config (S passes) self messages w =
      _process_conversation endpoint http config passes self messages w'.
Proof.
  intros Hitems Hreturns Hasked.
  assert (next_request config self messages w = request_for config self items) as Hnext.
  { unfold next_request. by rewrite Hitems. }
  rewrite <- Hnext in Hreturns.
  destruct (loop_body_tools endpoint http config self messages w items response choice calls
              Hitems Hreturns Hasked)
    as (entries & w' & Hbody & Hlog & Hitems' & Hentries & Hframe).
  exists entries, w'. rewrite <- Hnext.
  split; [exact Hbody |]. split; [exact Hlog |]. split; [exact Hitems' |].
  split; [symmetry; by eapply Forall2_length |]. split; [exact Hentries |].
  split; [exact Hframe |]. split.
  - unfold next_request at 1. by rewrite Hitems'.
  - intros passes. simpl. by rewrite Hbody.
Qed.

Lemma tool_round_extends_messages_witness :
  ∃ entries w',
    loop_body (Scenario.endpoint_script 1) (Scenario.http_status 200 "OK")
      Scenario.configured Scenario.agent 0 Scenario.start = (Ret Again, w') ∧
    heap w' !! 0 =
      Some (Scenario.earlier
              ++ [TMessage {| content := None;
                              tool_calls := Some [Scenario.contact_call;
                                                  Scenario.question_call] |}]
              ++ entries) ∧
    length entries = 2.
Proof.
  destruct (tool_round_extends_messages (Scenario.endpoint_script 1)
              (Scenario.http_status 200 "OK") Scenario.configured Scenario.agent 0
              Scenario.start Scenario.earlier
              (Scenario.tools_response [Scenario.contact_call; Scenario.question_call])
              {| finish_reason := "tool_calls";
                 message := {| content := None;
                               tool_calls := Some [Scenario.contact_call;
                                                   Scenario.question_call] |} |}
              [Scenario.contact_call; Scenario.question_call]
              eq_refl eq_refl)
    as (entries & w' & Hbody & _ & Hitems & Hlength & _).
  - split; [reflexivity |]. split; [reflexivity |]. split; [reflexivity |].
    repeat constructor; eexists; reflexivity.
  - exists entries, w'. split; [exact Hbody |]. split; [exact Hitems | exact Hlength].
Defined.

(** C3, as the code has it. Calling [record_user_details] with the email
    a@b.com and neither name nor notes returns the acknowledgement and
    triggers a User Registration notification. Its message contains a@b.com
    and Name not provided, and it ends with the notes portion for the default
    notes, the text not provided, which is not empty. The notes portion is
    appended exactly when the notes value is true in a condition, which for a
    text means that it is not empty. *)
Theorem record_contact_notification http config w :
  let kwargs := [("email", JStr "a@b.com")] in
  let client := notification_client config in
  let message :=
    "New user registration: Name not provided (a@b.com) - Notes: not provided" in
  call_record_user_details http config kwargs w =
    record_user_details http config
      (JStr "a@b.com") (JStr "Name not provided") (JStr "not provided") w ∧
  (∃ w', call_record_user_details http config kwargs w = (Ret recorded_ok, w')) ∧
  call_record_user_details http config kwargs w =
    (send_notification http client message (Some "User Registration") >> ret recorded_ok) w ∧
  Text.contains "a@b.com" message = true ∧
  Text.contains "Name not provided" message = true ∧
  message = "New user registration: Name not provided (a@b.com)" +:+ " - Notes: not provided" ∧
  (opt_truthy (token client) = true → opt_truthy (user client) = true →
   http_log (call_record_user_details http config kwargs w).2 =
   http_log w ++ [notification_request client message (Some "User Registration")]) ∧
  (∀ name email notes,
     user_registration_message name email notes =
     ("New user registration: " +:+ PyStr.str name +:+ " (" +:+ PyStr.str email +:+ ")")
       +:+ (if Json.truthy notes then " - Notes: " +:+ PyStr.str notes else "")) ∧
  (∀ notes, Json.truthy (JStr notes) = true ↔ notes ≠ "").
Proof.
  intros kwargs client message.
  assert (call_record_user_details http config kwargs w =
          record_user_details http config
            (JStr "a@b.com") (JStr "Name not provided") (JStr "not provided") w) as Hcall
    by reflexivity.
  split; [exact Hcall |]. split.
  { rewrite Hcall.
    destruct (record_user_details_returns http config (JStr "a@b.com")
                (JStr "Name not provided") (JStr "not provided") w) as (w' & Hrun & _).
    eauto. }
  split; [reflexivity |]. split; [reflexivity |]. split; [reflexivity |].
  split; [reflexivity |]. split.
  { intros Htoken Huser. rewrite Hcall.
    unfold record_user_details, send_user_registration, bind.
    change (user_registration_message (JStr "Name not provided") (JStr "a@b.com")
              (JStr "not provided")) with message.
    fold client.
    destruct (send_notification_configured http client message (Some "User Registration") w
                Htoken Huser) as (w' & -> & Hlog & _).
    exact Hlog. }
  split.
  - intros name email notes. unfold user_registration_message.
    destruct (Json.truthy notes).
    + reflexivity.
    + by rewrite append_empty_r.
  - intros notes. destruct notes; simpl; split; try done.
Qed.

Lemma record_contact_notification_witness :
  http_log (call_record_user_details (Scenario.http_status 200 "OK") Scenario.configured
              [("email", JStr "a@b.com")] empty_world).2 =
  [notification_request (notification_client Scenario.configured)
     "New user registration: Name not provided (a@b.com) - Notes: not provided"
     (Some "User Registration")].
Proof.
  exact (proj1 (proj2 (proj2 (proj2 (proj2 (proj2 (proj2
           (record_contact_notification (Scenario.http_status 200 "OK")
              Scenario.configured empty_world)))))))
           eq_refl eq_refl).
Defined.

(** C3 as stated fails: with the notes omitted, the message that is posted
    does carry a notes portion. *)
Lemma record_contact_counterexample :
  let run :=
    call_record_user_details (Scenario.http_status 200 "OK") Scenario.configured
      [("email", JStr "a@b.com")] empty_world in
  run.1 = Ret recorded_ok ∧
  post_data <$> http_log run.2 =
    [[("token", "app-token"); ("user", "user-key");
      ("message", "New user registration: Name not provided (a@b.com) - Notes: not provided");
      ("title", "User Registration")]] ∧
  Text.contains "Notes:"
    "New user registration: Name not provided (a@b.com) - Notes: not provided" = true.
Proof. vm_compute. by repeat split. Qed.

(** The names the dispatch finds are the bound names, and no other. *)
Lemma module_globals_unbound (tool_name : string) :
  module_globals !! tool_name = None ↔ tool_name ∉ bound_names.
Proof.
  split.
  - intros Hnone Hin. unfold bound_names in Hin.
    repeat (apply elem_of_cons in Hin as [-> | Hin]; [by vm_compute in Hnone |]).
    by apply elem_of_nil in Hin.
  - intros Hnot. unfold module_globals.
    repeat (rewrite lookup_insert_ne;
            [| intros <-; apply Hnot; unfold bound_names; set_solver]).
    apply lookup_empty.
Qed.

(** C4, as the code has it. For every tool name that is not bound in the
    namespace of the tools module and every decodable argument text, the
    dispatch answers the call with a tool result whose content is the JSON
    text of the not-found error and whose identifier is that of the call; it
    raises nothing, sends nothing and prints two lines. *)
Theorem dispatch_unbound_name http config tool_call v w :
  module_globals !! fn_name (call_function tool_call) = None →
  fn_arguments (call_function tool_call) = Encoded v →
  let tool_name := fn_name (call_function tool_call) in
  handle_tool_calls http config (Some [tool_call]) w =
  (Ret [TDict [("role", JStr "tool");
               ("content",
                JStr (Json.dumps (JObj [("error", JStr ("Tool " +:+ tool_name +:+ " not found"))])));
               ("tool_call_id", JStr (call_id tool_call))]],
   {| heap := heap w; model_log := model_log w; http_log := http_log w;
      console := console w ++ ["Tool called: " +:+ tool_name;
                               "Tool function " +:+ tool_name +:+ " not found"] |}).
Proof.
  intros Hunbound Hargs tool_name.
  unfold handle_tool_calls. simpl. unfold bind at 1, handle_tool_call.
  rewrite Hargs, Hunbound. unfold bind, print, ret, tool_result. simpl.
  by rewrite <- app_assoc.
Qed.

Lemma dispatch_unbound_name_witness :
  handle_tool_calls (Scenario.http_status 200 "OK") Scenario.configured
    (Some [Scenario.tool_call "call_7" "lookup_weather" (JObj [("city", JStr "Oslo")])])
    empty_world =
  (Ret [TDict [("role", JStr "tool");
               ("content", JStr (Json.dumps (not_found "lookup_weather")));
               ("tool_call_id", JStr "call_7")]],
   {| heap := []; model_log := []; http_log := [];
      console := ["Tool called: lookup_weather";
                  "Tool function lookup_weather not found"] |}).
Proof.
  exact (dispatch_unbound_name (Scenario.http_status 200 "OK") Scenario.configured
           (Scenario.tool_call "call_7" "lookup_weather" (JObj [("city", JStr "Oslo")]))
           (JObj [("city", JStr "Oslo")]) empty_world eq_refl eq_refl).
Defined.

(** C4 as stated fails: [get_tool_definitions] is not one of the two
    registered operations, yet the dispatch finds it in the namespace, calls
    it and answers with the tool schemas. *)
Lemma dispatch_unregistered_counterexample :
  let tool_call := Scenario.tool_call "call_3" "get_tool_definitions" (JObj []) in
  let tool_name := fn_name (call_function tool_call) in
  tool_name ≠ "record_user_details" ∧
  tool_name ≠ "record_unknown_question" ∧
  (handle_tool_calls (Scenario.http_status 200 "OK") Scenario.configured
     (Some [tool_call]) empty_world).1 =
    Ret [tool_result get_tool_definitions tool_call] ∧
  tool_result get_tool_definitions tool_call ≠ tool_result (not_found tool_name) tool_call.
Proof.
  intros tool_call tool_name.
  split; [discriminate |]. split; [discriminate |]. split; [reflexivity |].
  vm_compute. discriminate.
Qed.

(** C8, as the code has it. Without one of the two credentials,
    [send_notification] returns true and posts nothing. With both, it posts
    once; an exception of [requests] (a network failure) and a response with a
    status from 400 to 599, which is what [raise_for_status] rejects, are
    reported as false, every other response as true; in no case is an
    exception raised to the caller. *)
Theorem send_notification_contract http self message title w :
  (opt_truthy (token self) = false ∨ opt_truthy (user self) = false →
   ∃ w', send_notification http self message title w = (Ret true, w') ∧
         http_log w' = http_log w) ∧
  (opt_truthy (token self) = true → opt_truthy (user self) = true →
   let request := notification_request self message title in
   let outcome := http (length (http_log w)) request in
   ∃ b w',
     send_notification http self message title w = (Ret b, w') ∧
     http_log w' = http_log w ++ [request] ∧
     (∀ kind msg, outcome = PostRaises kind msg → b = false) ∧
     (∀ response, outcome = PostReturns response →
        (400 ≤ status_code response < 600)%Z → b = false) ∧
     (∀ response, outcome = PostReturns response →
        ¬ (400 ≤ status_code response < 600)%Z → b = true)) ∧
  (∃ b w', send_notification http self message title w = (Ret b, w')).
Proof.
  split; [| split].
  - intros Hcred.
    destruct (send_notification_unconfigured http self message title w Hcred)
      as (w' & Hrun & Hlog & _).
    eauto.
  - intros Htoken Huser request outcome.
    destruct (send_notification_configured http self message title w Htoken Huser)
      as (w' & Hrun & Hlog & _).
    exists (reported outcome), w'. split; [exact Hrun |]. split; [exact Hlog |].
    split; [| split].
    + by intros kind msg ->.
    + intros response -> Hstatus. simpl. apply negb_false_iff. lia.
    + intros response -> Hstatus. simpl. apply negb_true_iff. lia.
  - destruct (send_notification_returns http self message title w) as (b & w' & Hrun & _).
    eauto.
Qed.

Lemma send_notification_contract_witness :
  (∃ w', send_notification Scenario.http_down (notification_client Scenario.unconfigured)
           "Hello" (Some "Greeting") empty_world = (Ret true, w') ∧
         http_log w' = []) ∧
  (∃ w', send_notification Scenario.http_down (notification_client Scenario.configured)
           "Hello" (Some "Greeting") empty_world = (Ret false, w') ∧
         http_log w' =
           [notification_request (notification_client Scenario.configured)
              "Hello" (Some "Greeting")]).
Proof.
  split.
  - exact (proj1 (send_notification_contract Scenario.http_down
                    (notification_client Scenario.unconfigured)
                    "Hello" (Some "Greeting") empty_world)
             (or_introl eq_refl)).
  - destruct (proj1 (proj2 (send_notification_contract Scenario.http_down
                              (notification_client Scenario.configured)
                              "Hello" (Some "Greeting") empty_world))
                eq_refl eq_refl)
      as (b & w' & Hrun & Hlog & Hraises & _).
    pose proof (Hraises _ _ eq_refl) as Hb. subst b.
    exists w'. split; [exact Hrun | exact Hlog].
Defined.

(** C8 as stated fails: a response that is not 2xx and not an error status,
    such as 304, is reported as true. *)
Lemma send_notification_counterexample :
  let client := notification_client Scenario.configured in
  opt_truthy (token client) = true ∧
  opt_truthy (user client) = true ∧
  ¬ (200 ≤ 304 < 300)%Z ∧
  (send_notification (Scenario.http_status 304 "Not Modified") client
     "Hello" (Some "Greeting") empty_world).1 = Ret true.
Proof. split; [reflexivity |]. split; [reflexivity |]. split; [lia | reflexivity]. Qed.

(** C9. For every question text, [record_unknown_question] returns the
    acknowledgement and triggers an Unknown Question notification whose
    message contains the text of the question as it is. *)
Theorem record_unknown_question_notification http config question w :
  let client := notification_client config in
  let message := "Unknown question recorded: " +:+ question in
  (∃ w', record_unknown_question http config (JStr question) w = (Ret recorded_ok, w')) ∧
  call_record_unknown_question http config [("question", JStr question)] w =
    record_unknown_question http config (JStr question) w ∧
  record_unknown_question http config (JStr question) w =
    (send_notification http client message (Some "Unknown Question") >> ret recorded_ok) w ∧
  occurs_in question message ∧
  Text.contains question message = true ∧
  (opt_truthy (token client) = true → opt_truthy (user client) = true →
   http_log (record_unknown_question http config (JStr question) w).2 =
   http_log w ++ [notification_request client message (Some "Unknown Question")] ∧
   ("message", message) ∈ post_data (notification_request client message
                                       (Some "Unknown Question"))).
Proof.
  intros client message.
  assert (occurs_in question message) as Hoccurs.
  { exists "Unknown question recorded: ", "". by rewrite append_empty_r. }
  split.
  { destruct (record_unknown_question_returns http config (JStr question) w)
      as (w' & Hrun & _).
    eauto. }
  split; [reflexivity |]. split; [reflexivity |]. split; [exact Hoccurs |].
  split; [by apply occurs_in_contains |].
  intros Htoken Huser. split.
  - unfold record_unknown_question, send_unknown_question, bind.
    change (unknown_question_message (JStr question)) with message. fold client.
    destruct (send_notification_configured http client message (Some "Unknown Question") w
                Htoken Huser) as (w' & -> & Hlog & _).
    exact Hlog.
  - unfold notification_request, notification_data. simpl. set_solver.
Qed.

Lemma record_unknown_question_notification_witness :
  http_log (record_unknown_question (Scenario.http_status 200 "OK") Scenario.configured
              (JStr "What is X?") empty_world).2 =
  [notification_request (notification_client Scenario.configured)
     "Unknown question recorded: What is X?" (Some "Unknown Question")].
Proof.
  exact (proj1 (proj2 (proj2 (proj2 (proj2 (proj2
           (record_unknown_question_notification (Scenario.http_status 200 "OK")
              Scenario.configured "What is X?" empty_world)))))
           eq_refl eq_refl)).
Defined.

(** C5. Whenever a request to the model endpoint fails inside the loop, at
    the first pass or after any number of tool rounds, [chat] stops there,
    sends nothing more and returns the apology; and whatever the endpoint
    does, [chat] raises nothing to its caller. *)
Theorem chat_endpoint_failure endpoint http config self user_message history w :
  (∀ passes more wk e,
     chat endpoint http config passes self user_message history w = (None, wk) →
     endpoint (length (model_log wk)) (next_request config self (length (heap w)) wk)
       = Raises e →
     ∃ w', chat endpoint http config (passes + S more) self user_message history w =
             (Some (Ret (Some apology)), w') ∧
           model_log w' =
             model_log wk ++ [next_request config self (length (heap w)) wk]) ∧
  (∀ passes e,
     (chat endpoint http config passes self user_message history w).1 ≠ Some (Raise e)) ∧
  apology =
    "I apologize, but I encountered an error processing your request. Please try again.".
Proof.
  split; [| split; [| reflexivity]].
  - intros passes more wk e Hgoing Hfails.
    rewrite chat_start in *.
    rewrite (process_conversation_resume endpoint http config self passes (S more) _ _ wk Hgoing).
    destruct (loop_body_raises endpoint http config self (length (heap w)) wk e Hfails)
      as (w' & Hbody & Hlog & _).
    exists w'. simpl. rewrite Hbody. by split.
  - intros passes e. rewrite chat_start.
    destruct (process_conversation_run endpoint http config self passes (length (heap w))
                (set_heap (heap w ++ [opening self user_message (default [] (heap w !! history))]) w))
      as (r & w' & requests & -> & _ & _ & _ & _ & Hr).
    apply Hr.
Qed.

Lemma chat_endpoint_failure_witness :
  ∃ w', chat (Scenario.endpoint_breaks 1) (Scenario.http_status 200 "OK")
          Scenario.configured 3 Scenario.agent "Hi" 0 Scenario.start =
        (Some (Ret (Some apology)), w') ∧
        length (model_log w') = 2.
Proof.
  edestruct (proj1 (chat_endpoint_failure (Scenario.endpoint_breaks 1)
                      (Scenario.http_status 200 "OK") Scenario.configured
                      Scenario.agent "Hi" 0 Scenario.start) 1 1)
    as (w' & Hrun & Hlog).
  - vm_compute. reflexivity.
  - reflexivity.
  - exists w'. split; [exact Hrun |]. rewrite Hlog. reflexivity.
Defined.

(** C6. When the first response of the endpoint does not ask for tools,
    [chat] returns the content of its message as it is, and that request is
    the only one it sends. *)
Theorem chat_plain_answer endpoint http config passes self user_message history H w
    response choice :
  heap w !! history = Some H →
  endpoint (length (model_log w)) (request_for config self (opening self user_message H))
    = Returns response →
  plain_answer response choice →
  ∃ w', chat endpoint http config (S passes) self user_message history w =
          (Some (Ret (content (message choice))), w') ∧
        model_log w' = model_log w ++ [request_for config self (opening self user_message H)].
Proof.
  intros HH Hreturns Hplain.
  rewrite chat_start, HH. simpl default.
  set (w1 := set_heap (heap w ++ [opening self user_message H]) w).
  assert (next_request config self (length (heap w)) w1 =
          request_for config self (opening self user_message H)) as Hnext.
  { unfold next_request, w1. by rewrite opening_allocated. }
  simpl.
  rewrite (loop_body_answer endpoint http config self (length (heap w)) w1 response choice).
  - rewrite (final_answer_run response choice _ (proj1 Hplain)).
    eexists. split; [reflexivity |]. simpl. by rewrite Hnext.
  - by rewrite Hnext.
  - exact Hplain.
Qed.

Lemma chat_plain_answer_witness :
  ∃ w', chat Scenario.endpoint_answers (Scenario.http_status 200 "OK")
          Scenario.configured 1 Scenario.agent "Hi" 0 Scenario.start =
        (Some (Ret (Some "Hello")), w') ∧
        model_log w' =
          [request_for Scenario.configured Scenario.agent
             (opening Scenario.agent "Hi" Scenario.earlier)].
Proof.
  refine (chat_plain_answer Scenario.endpoint_answers (Scenario.http_status 200 "OK")
            Scenario.configured 0 Scenario.agent "Hi" 0 Scenario.earlier Scenario.start
            (Scenario.answer_response "Hello")
            {| finish_reason := "stop";
               message := {| content := Some "Hello"; tool_calls := None |} |}
            eq_refl eq_refl _).
  split; [reflexivity | discriminate].
Defined.

(** C7. When the endpoint asks for tools a finite number of times and then
    gives a plain answer, [chat] ends and returns that answer, after one
    request per response. The loop has no bound of its own: when the endpoint
    asks for tools every time, [chat] is still running after any number of
    passes, having sent that many requests. *)
Theorem chat_termination endpoint http config self user_message history H w :
  heap w !! history = Some H →
  (∀ rounds final choice,
     (∀ k request, k < rounds →
        ∃ response asked calls,
          endpoint (length (model_log w) + k) request = Returns response ∧
          requests_tools response asked calls) →
     (∀ request, endpoint (length (model_log w) + rounds) request = Returns final) →
     plain_answer final choice →
     ∀ more,
       ∃ w', chat endpoint http config (S rounds + more) self user_message history w =
               (Some (Ret (content (message choice))), w') ∧
             length (model_log w') = length (model_log w) + S rounds) ∧
  ((∀ k request,
      ∃ response asked calls,
        endpoint (length (model_log w) + k) request = Returns response ∧
        requests_tools response asked calls) →
   ∀ passes,
     ∃ w', chat endpoint http config passes self user_message history w = (None, w') ∧
           length (model_log w') = length (model_log w) + passes).
Proof.
  intros HH. split.
  - intros rounds final choice Htools Hfinal Hplain more.
    rewrite chat_start, HH. simpl default.
    destruct (process_conversation_script endpoint http config self rounds (length (heap w))
                (set_heap (heap w ++ [opening self user_message H]) w)
                (opening self user_message H) final choice
                (opening_allocated self user_message H w) Htools Hfinal Hplain)
      as (w' & Hrun & Hlen).
    exists w'. split; [| exact Hlen].
    by apply process_conversation_more.
  - intros Htools passes.
    rewrite chat_start, HH. simpl default.
    exact (process_conversation_forever endpoint http config self passes (length (heap w))
             (set_heap (heap w ++ [opening self user_message H]) w)
             (opening self user_message H) (opening_allocated self user_message H w) Htools).
Qed.

Lemma chat_termination_witness :
  (∃ w', chat (Scenario.endpoint_script 2) (Scenario.http_status 200 "OK")
           Scenario.configured 3 Scenario.agent "Hi" 0 Scenario.start =
         (Some (Ret (Some "Done")), w') ∧
         length (model_log w') = 3) ∧
  (∀ passes,
     ∃ w', chat Scenario.endpoint_insists (Scenario.http_status 200 "OK")
             Scenario.configured passes Scenario.agent "Hi" 0 Scenario.start = (None, w') ∧
           length (model_log w') = passes).
Proof.
  split.
  - refine (proj1 (chat_termination (Scenario.endpoint_script 2)
                     (Scenario.http_status 200 "OK") Scenario.configured
                     Scenario.agent "Hi" 0 Scenario.earlier Scenario.start eq_refl)
              2 (Scenario.answer_response "Done")
              {| finish_reason := "stop";
                 message := {| content := Some "Done"; tool_calls := None |} |}
              _ _ _ 0).
    + intros k request Hk. eexists _, _, _. split.
      * destruct k as [| [| k]]; [reflexivity | reflexivity | lia].
      * split; [reflexivity |]. split; [reflexivity |]. split; [reflexivity |].
        repeat constructor; eexists; reflexivity.
    + reflexivity.
    + split; [reflexivity | discriminate].
  - refine (proj2 (chat_termination Scenario.endpoint_insists
                     (Scenario.http_status 200 "OK") Scenario.configured
                     Scenario.agent "Hi" 0 Scenario.earlier Scenario.start eq_refl) _).
    intros k request. eexists _, _, _. split; [reflexivity |].
    split; [reflexivity |]. split; [reflexivity |]. split; [reflexivity |].
    repeat constructor; eexists; reflexivity.
Defined.

(** C10. [chat] leaves the list it is given as history as it was. The
    turns it adds go to a list that did not exist before the call: the system
    turn, the items of the history and the user turn, then what the loop
    appends. No list that existed before the call is changed. *)
Theorem chat_leaves_history endpoint http config passes self user_message history H w :
  heap w !! history = Some H →
  let w' := (chat endpoint http config passes self user_message history w).2 in
  heap w' !! history = Some H ∧
  (∀ l, l < length (heap w) → heap w' !! l = heap w !! l) ∧
  heap w !! length (heap w) = None ∧
  (∃ more, heap w' !! length (heap w) = Some (opening self user_message H ++ more)).
Proof.
  intros HH w'. subst w'.
  rewrite chat_start, HH. simpl default.
  destruct (process_conversation_run endpoint http config self passes (length (heap w))
              (set_heap (heap w ++ [opening self user_message H]) w))
    as (r & w' & requests & -> & _ & _ & [_ Hframe] & Hgrow & _).
  pose proof (Hgrow _ (opening_allocated self user_message H w)) as Hmore.
  change ((r, w').2) with w'.
  assert (∀ l, l < length (heap w) → heap w' !! l = heap w !! l) as Hold.
  { intros l Hl. rewrite Hframe by lia. simpl. by apply lookup_app_l. }
  split; [| split; [exact Hold |]; split].
  - rewrite Hold; [exact HH |]. by eapply lookup_lt_Some.
  - by apply lookup_ge_None.
  - exact Hmore.
Qed.

Lemma chat_leaves_history_witness :
  heap (chat (Scenario.endpoint_script 2) (Scenario.http_status 200 "OK")
          Scenario.configured 3 Scenario.agent "Hi" 0 Scenario.start).2 !! 0 =
  Some Scenario.earlier.
Proof.
  exact (proj1 (chat_leaves_history (Scenario.endpoint_script 2)
                  (Scenario.http_status 200 "OK") Scenario.configured 3
                  Scenario.agent "Hi" 0 Scenario.earlier Scenario.start eq_refl)).
Defined.

(** * Further properties *)

(** ** Configuration and start-up checks *)

(** X1. [validate_config] tests that the API key is set, while
    [get_missing_config] tests that it is a non-empty text. Whenever the
    validation fails the list of missing variables is exactly OPENAI_API_KEY;
    the two disagree exactly for a key set to the empty text, which passes the
    validation and is still listed as missing. *)
Theorem validation_and_missing_list (c : Config) :
  (validate_config c = true ↔ is_Some (openai_api_key c)) ∧
  (get_missing_config c = [] ↔ ∃ key, openai_api_key c = Some key ∧ key ≠ "") ∧
  (get_missing_config c = [] ∨ get_missing_config c = ["OPENAI_API_KEY"]) ∧
  (validate_config c = false → get_missing_config c = ["OPENAI_API_KEY"]) ∧
  (validate_config c = true ∧ get_missing_config c ≠ [] ↔ openai_api_key c = Some "").
Proof.
  unfold validate_config, get_missing_config.
  destruct (openai_api_key c) as [[| x key] |]; simpl.
  - split; [split; [eauto | done] |]. split; [split; [done | by intros (k & [= <-] & ?)] |].
    split; [by right |]. split; [done |]. split; [done | by split].
  - split; [split; [eauto | done] |]. split; [split; [by eexists | done] |].
    split; [by left |]. split; [done |]. split; [by intros [_ ?] | done].
  - split; [split; [done | by intros [? ?]] |].
    split; [split; [done | by intros (k & ? & ?)] |].
    split; [by right |]. split; [done |]. split; [by intros [? _] | done].
Qed.

(** X2. [validate_environment] returns true exactly when the API key is
    set, and then prints nothing; otherwise it returns false after printing
    the heading, the line for OPENAI_API_KEY and the advice. A key set to the
    empty text is accepted. *)
Theorem validate_environment_outcome (config : Config) (w : world) :
  validate_environment config w =
  if bool_decide (is_Some (openai_api_key config)) then (Ret true, w)
  else
    (Ret false,
     printed ["Error: Missing required environment variables:";
              "  - OPENAI_API_KEY";
              Text.nl +:+ "Please set these variables in your .env file or environment."] w).
Proof.
  unfold validate_environment, validate_config, get_missing_config.
  destruct (openai_api_key config) as [key |]; simpl; [reflexivity |].
  unfold bind, print, printed. simpl. by rewrite <- !app_assoc.
Qed.

(** X3. [check_required_files] returns true exactly when the profile
    document and the summary file both exist, and then prints nothing;
    otherwise it returns false after printing the heading, one line for each
    missing path and no other, the profile document first, and the advice. *)
Theorem check_required_files_outcome (config : Config) (path_exists : string → bool)
    (w : world) :
  let missing :=
    filter (fun path => path_exists path = false)
      [linkedin_pdf_path config; summary_file_path config] in
  check_required_files config path_exists w =
    (if decide (missing = []) then (Ret true, w)
     else
       (Ret false,
        printed ("Error: Missing required files:"
                   :: map (fun path => "  - " +:+ path) missing
                   ++ [Text.nl +:+ "Please ensure these files exist in the correct locations."])
          w)) ∧
  (missing = [] ↔
   path_exists (linkedin_pdf_path config) = true ∧
   path_exists (summary_file_path config) = true).
Proof.
  unfold check_required_files. simpl.
  rewrite !filter_cons, filter_nil.
  destruct (path_exists (linkedin_pdf_path config)) eqn:Hpdf;
    destruct (path_exists (summary_file_path config)) eqn:Hsummary; simpl;
    repeat case_decide; try done;
    (split; [| split; [done | try done; by intros [? ?]]]);
    unfold bind, print, printed; simpl; by rewrite <- ?app_assoc.
Qed.

(** X4. [has_notifications] tests that the two credentials are set, while
    the sender tests that they are non-empty texts. When it says that
    notifications are off, the module-level client posts nothing and reports
    success; when the client has both credentials it says that they are on;
    and for a token set to the empty text it says on although nothing is
    posted. *)
Theorem notifications_flag_and_sender http (c : Config) message title w :
  let client := notification_client c in
  let skipped :=
    (Ret true, printed ["Info: Pushover notifications not configured (optional feature)"] w) in
  (has_notifications c = false →
   send_notification http client message title w = skipped) ∧
  (opt_truthy (token client) = true → opt_truthy (user client) = true →
   has_notifications c = true) ∧
  (pushover_token c = Some "" → is_Some (pushover_user c) →
   has_notifications c = true ∧ send_notification http client message title w = skipped).
Proof.
  intros client skipped. subst client skipped.
  unfold has_notifications, send_notification, notification_client, PushoverClient__init__,
    py_or. simpl.
  destruct (pushover_token c) as [[| x t] |]; destruct (pushover_user c) as [[| y u] |];
    simpl; repeat split; try done; by intros [? ?].
Qed.

Lemma notifications_flag_and_sender_witness :
  has_notifications Scenario.empty_token = true ∧
  send_notification Scenario.http_down (notification_client Scenario.empty_token)
    "Hello" None empty_world =
  (Ret true,
   printed ["Info: Pushover notifications not configured (optional feature)"] empty_world).
Proof.
  exact (proj2 (proj2 (notifications_flag_and_sender Scenario.http_down Scenario.empty_token
                         "Hello" None empty_world))
           eq_refl (ex_intro _ "user-key" eq_refl)).
Defined.

(** ** Loading the background and building the prompt *)

Lemma append_assoc (a b c : string) : (a +:+ b) +:+ c = a +:+ (b +:+ c).
Proof.
  induction a as [| x a IH]; [reflexivity |].
  by rewrite !append_cons, IH.
Qed.

Lemma printed_nil w : printed [] w = w.
Proof. destruct w. unfold printed. simpl. by rewrite app_nil_r. Qed.

Lemma extract_pages_run pages : ∀ collected w,
  extract_pages collected pages w =
  (Ret (collected +:+ joined (readable_pages pages)),
   printed (match first_failure pages with
            | Some e => ["Error extracting LinkedIn content: " +:+ exn_msg e]
            | None => []
            end) w).
Proof.
  induction pages as [| [text | e] rest IH]; intros collected w; simpl.
  - by rewrite printed_nil, append_empty_r.
  - rewrite IH. f_equal. f_equal.
    destruct text as [| x text]; simpl.
    + reflexivity.
    + by rewrite append_assoc.
  - unfold bind, print, printed. simpl. by rewrite append_empty_r.
Qed.

Lemma extract_linkedin_content_run (pdf : pdf_document) (w : world) :
  _extract_linkedin_content pdf w =
  match pdf with
  | PdfPages pages =>
      (Ret (joined (readable_pages pages)),
       printed (match first_failure pages with
                | Some e => ["Error extracting LinkedIn content: " +:+ exn_msg e]
                | None => []
                end) w)
  | PdfFails e =>
      (Ret "", printed ["Error extracting LinkedIn content: " +:+ exn_msg e] w)
  end.
Proof.
  destruct pdf as [pages | e]; simpl.
  - by rewrite extract_pages_run.
  - reflexivity.
Qed.

(** X5. [_extract_linkedin_content] never raises. It returns the texts of
    the pages in order, up to the first page whose extraction fails: the text
    collected before a failing page is kept, the pages after it are not read,
    and the failure is printed. When the document cannot be opened the result
    is empty. *)
Theorem extract_linkedin_content_outcome (pdf : pdf_document) (w : world) :
  _extract_linkedin_content pdf w =
  match pdf with
  | PdfPages pages =>
      (Ret (joined (readable_pages pages)),
       printed (match first_failure pages with
                | Some e => ["Error extracting LinkedIn content: " +:+ exn_msg e]
                | None => []
                end) w)
  | PdfFails e =>
      (Ret "", printed ["Error extracting LinkedIn content: " +:+ exn_msg e] w)
  end.
Proof. apply extract_linkedin_content_run. Qed.


Lemma occurs_in_here (part rest : string) : occurs_in part (part +:+ rest).
Proof. by exists "", rest. Qed.

Lemma occurs_in_after (part a s : string) : occurs_in part s → occurs_in part (a +:+ s).
Proof.
  intros (before & after & ->). exists (a +:+ before), after. by rewrite append_assoc.
Qed.

Lemma occurs_in_before (part s b : string) : occurs_in part s → occurs_in part (s +:+ b).
Proof.
  intros (before & after & ->). exists before, (after +:+ b). by rewrite !append_assoc.
Qed.

(** X7. The system prompt is a persona text, then the summary and the
    profile text, each as it is and under its heading, the summary first,
    then the closing sentence with the name of the agent. *)
Theorem system_prompt_layout (self : AIAgent) :
  let background :=
    Text.nl +:+ Text.nl +:+ "## Summary:" +:+ Text.nl +:+ summary self
      +:+ Text.nl +:+ Text.nl +:+ "## LinkedIn Profile:" +:+ Text.nl +:+ linkedin_content self
      +:+ Text.nl +:+ Text.nl in
  let closing :=
    "With this context, please chat with the user, always staying in character as "
      +:+ name self +:+ "." in
  (∃ persona,
     get_system_prompt self = persona +:+ background +:+ closing ∧
     String.prefix ("You are acting as " +:+ name self) persona = true) ∧
  occurs_in (summary self) (get_system_prompt self) ∧
  occurs_in (linkedin_content self) (get_system_prompt self).
Proof.
  intros background closing.
  assert (∃ persona,
            get_system_prompt self = persona +:+ background +:+ closing ∧
            String.prefix ("You are acting as " +:+ name self) persona = true)
    as (persona & Hprompt & Hpersona).
  { unfold get_system_prompt, system_prompt_text. cbv zeta. eexists. split.
    - rewrite append_assoc. reflexivity.
    - rewrite <- (append_assoc "You are acting as " (name self)). apply prefix_append. }
  split; [eauto |]. rewrite Hprompt. subst background. split.
  - apply occurs_in_after, occurs_in_before.
    do 4 apply occurs_in_after. apply occurs_in_here.
  - apply occurs_in_after, occurs_in_before.
    do 9 apply occurs_in_after. apply occurs_in_here.
Qed.

(** ** The dispatch, call by call *)

Section Dispatch.

Variable http : nat -> http_request -> post_outcome.
Variable config : Config.

Lemma advertised_tools_are :
  advertised_tools =
  [{| adv_name := "record_user_details";
      adv_properties := ["email"; "name"; "notes"];
      adv_required := ["email"] |};
   {| adv_name := "record_unknown_question";
      adv_properties := ["question"];
      adv_required := ["question"] |}].
Proof. reflexivity. Qed.

Lemma check_keywords_accepts fname params kwargs w :
  forallb (fun k => bool_decide (k ∈ params)) kwargs.*1 = true →
  check_keywords fname params kwargs w = (Ret tt, w).
Proof.
  intros Hall. unfold check_keywords.
  assert (unexpected_keyword params kwargs = None) as ->; [| reflexivity].
  induction kwargs as [| [k v] rest IH]; [reflexivity |].
  simpl in *. apply andb_true_iff in Hall as [-> Hrest]. by apply IH.
Qed.

Lemma check_keywords_rejects fname params kwargs w :
  forallb (fun k => bool_decide (k ∈ params)) kwargs.*1 = false →
  ∃ text, check_keywords fname params kwargs w = (Raise (Exn TypeError text), w).
Proof.
  intros Hsome. unfold check_keywords.
  assert (∃ k, unexpected_keyword params kwargs = Some k) as [k ->]; [| by eexists].
  induction kwargs as [| [k v] rest IH]; [discriminate |].
  simpl in *. destruct (bool_decide (k ∈ params)); [by apply IH | by eexists].
Qed.

Lemma get_listed key kwargs :
  bool_decide (key ∈ kwargs.*1) = true → is_Some (Json.get key kwargs).
Proof.
  intros Hin. apply bool_decide_eq_true in Hin.
  induction kwargs as [| [k v] rest IH]; [by apply elem_of_nil in Hin |].
  simpl in *. destruct (String.eqb key k) eqn:Heq; [by eexists |].
  apply elem_of_cons in Hin as [-> | Hin]; [| by apply IH].
  by rewrite String.eqb_refl in Heq.
Qed.

Lemma get_unlisted key kwargs :
  bool_decide (key ∈ kwargs.*1) = false → Json.get key kwargs = None.
Proof.
  intros Hout. apply bool_decide_eq_false in Hout.
  induction kwargs as [| [k v] rest IH]; [reflexivity |].
  simpl in *. destruct (String.eqb key k) eqn:Heq.
  - apply String.eqb_eq in Heq as ->. destruct Hout. by left.
  - apply IH. intros Hin. apply Hout. by right.
Qed.

(** A call to a name that is bound, with decodable arguments: the object is
    called, and an exception becomes an error result. *)
Lemma handle_tool_call_bound tool_call f v w :
  module_globals !! fn_name (call_function tool_call) = Some f →
  fn_arguments (call_function tool_call) = Encoded v →
  let tool_name := fn_name (call_function tool_call) in
  handle_tool_call http config tool_call w =
  match call http config f v (printed ["Tool called: " +:+ tool_name] w) with
  | (Ret result, w') => (Ret (tool_result result tool_call), w')
  | (Raise e, w') =>
      (Ret (tool_result (JObj [("error", JStr (exn_msg e))]) tool_call),
       printed ["Error executing tool " +:+ tool_name +:+ ": " +:+ exn_msg e] w')
  end.
Proof.
  intros Hbound Hargs tool_name. unfold handle_tool_call.
  rewrite Hargs, Hbound. fold tool_name.
  unfold bind at 1. simpl. unfold bind at 1. simpl.
  fold (printed ["Tool called: " +:+ tool_name] w).
  assert (obj_truthy f = true) as -> by (by destruct f).
  unfold bind, try_except.
  by destruct (call http config f v (printed ["Tool called: " +:+ tool_name] w))
    as [[result | e] w'].
Qed.

Lemma call_conforming tool f arguments w :
  (tool, f) ∈ zip advertised_tools
                 [PyFunction def_record_user_details; PyFunction def_record_unknown_question] →
  conforms tool arguments = true →
  ∃ w', call http config f arguments w = (Ret recorded_ok, w') ∧ quiet w w'.
Proof.
  rewrite advertised_tools_are. simpl. intros Hin Hconforms.
  destruct arguments as [| | | | | kwargs]; try discriminate.
  apply andb_true_iff in Hconforms as [Hkeys Hrequired].
  apply elem_of_cons in Hin as [[= -> ->] | Hin];
    [| apply elem_of_cons in Hin as [[= -> ->] | Hin]; [| by apply elem_of_nil in Hin]];
    simpl in Hkeys, Hrequired; apply andb_true_iff in Hrequired as [Hrequired _];
    destruct (get_listed _ _ Hrequired) as [v Hv].
  - simpl. unfold call_record_user_details, bind.
    rewrite (check_keywords_accepts _ _ _ _ Hkeys). unfold required. rewrite Hv. simpl.
    apply record_user_details_returns.
  - simpl. unfold call_record_unknown_question, bind.
    rewrite (check_keywords_accepts _ _ _ _ Hkeys). unfold required. rewrite Hv. simpl.
    apply record_unknown_question_returns.
Qed.

Lemma call_not_conforming tool f arguments w :
  (tool, f) ∈ zip advertised_tools
                 [PyFunction def_record_user_details; PyFunction def_record_unknown_question] →
  conforms tool arguments = false →
  ∃ e, call http config f arguments w = (Raise e, w).
Proof.
  rewrite advertised_tools_are. simpl. intros Hin Hconforms.
  apply elem_of_cons in Hin as [[= -> ->] | Hin];
    [| apply elem_of_cons in Hin as [[= -> ->] | Hin]; [| by apply elem_of_nil in Hin]];
    (destruct arguments as [| | | | | kwargs]; try (by eexists));
    apply andb_false_iff in Hconforms as [Hkeys | Hrequired]; simpl in *.
  - unfold call_record_user_details, bind.
    destruct (check_keywords_rejects "record_user_details" ["email"; "name"; "notes"]
                kwargs w Hkeys) as [text ->]. by eexists.
  - unfold call_record_user_details, bind.
    destruct (check_keywords_quiet "record_user_details" ["email"; "name"; "notes"] kwargs w)
      as [[[] | e] ->]; [| by eexists].
    apply andb_false_iff in Hrequired as [Hrequired | ?]; [| discriminate].
    unfold required. rewrite (get_unlisted _ _ Hrequired). by eexists.
  - unfold call_record_unknown_question, bind.
    destruct (check_keywords_rejects "record_unknown_question" ["question"]
                kwargs w Hkeys) as [text ->]. by eexists.
  - unfold call_record_unknown_question, bind.
    destruct (check_keywords_quiet "record_unknown_question" ["question"] kwargs w)
      as [[[] | e] ->]; [| by eexists].
    apply andb_false_iff in Hrequired as [Hrequired | ?]; [| discriminate].
    unfold required. rewrite (get_unlisted _ _ Hrequired). by eexists.
Qed.

(** An advertised tool is bound to the function of its name. *)
Lemma advertised_bound tool :
  tool ∈ advertised_tools →
  ∃ f, module_globals !! adv_name tool = Some f ∧
       (tool, f) ∈ zip advertised_tools
                      [PyFunction def_record_user_details;
                       PyFunction def_record_unknown_question].
Proof.
  rewrite advertised_tools_are. intros Hin.
  apply elem_of_cons in Hin as [-> | Hin];
    [| apply elem_of_cons in Hin as [-> | Hin]; [| by apply elem_of_nil in Hin]].
  - eexists. split; [reflexivity |]. simpl. by left.
  - eexists. split; [reflexivity |]. simpl. right. by left.
Qed.

(** X8. The dispatch accepts what the schemas promise: for each tool that
    [get_tool_definitions] advertises, a call whose arguments are an object
    with only properties of the schema and all the required ones, whatever
    their values, is answered with the acknowledgement and the identifier of
    the call, whether or not the notification could be delivered. *)
Theorem advertised_call_accepted tool tool_call arguments w :
  tool ∈ advertised_tools →
  fn_name (call_function tool_call) = adv_name tool →
  fn_arguments (call_function tool_call) = Encoded arguments →
  conforms tool arguments = true →
  ∃ w', handle_tool_call http config tool_call w =
          (Ret (tool_result recorded_ok tool_call), w') ∧
        quiet w w'.
Proof.
  intros Htool Hname Hargs Hconforms.
  destruct (advertised_bound tool Htool) as (f & Hbound & Hpair).
  rewrite <- Hname in Hbound.
  rewrite (handle_tool_call_bound tool_call f arguments w Hbound Hargs).
  destruct (call_conforming tool f arguments
              (printed ["Tool called: " +:+ fn_name (call_function tool_call)] w)
              Hpair Hconforms) as (w' & -> & Hquiet).
  exists w'. split; [reflexivity |]. destruct Hquiet. by split.
Qed.

(** X9. A call to an advertised tool whose arguments break the schema (no
    object, a property the schema does not have, or a required one missing)
    is answered with an error result carrying the identifier of the call;
    the tool does not run: nothing is posted, and the only effect is two
    printed lines. *)
Theorem advertised_call_rejected tool tool_call arguments w :
  tool ∈ advertised_tools →
  fn_name (call_function tool_call) = adv_name tool →
  fn_arguments (call_function tool_call) = Encoded arguments →
  conforms tool arguments = false →
  ∃ text,
    handle_tool_call http config tool_call w =
    (Ret (tool_result (JObj [("error", JStr text)]) tool_call),
     printed ["Tool called: " +:+ adv_name tool;
              "Error executing tool " +:+ adv_name tool +:+ ": " +:+ text] w).
Proof.
  intros Htool Hname Hargs Hconforms.
  destruct (advertised_bound tool Htool) as (f & Hbound & Hpair).
  rewrite <- Hname in Hbound.
  rewrite (handle_tool_call_bound tool_call f arguments w Hbound Hargs).
  destruct (call_not_conforming tool f arguments
              (printed ["Tool called: " +:+ fn_name (call_function tool_call)] w)
              Hpair Hconforms) as ([cls text] & ->).
  exists text. rewrite Hname. unfold printed. simpl. by rewrite <- app_assoc.
Qed.

End Dispatch.

Section Posts.

Variable http : nat -> http_request -> post_outcome.
Variable config : Config.

Lemma send_notification_posts self message title w :
  let w' := (send_notification http self message title w).2 in
  http_log w' = http_log w ∨
  http_log w' = http_log w ++ [notification_request self message title].
Proof.
  destruct (opt_truthy (token self)) eqn:Htoken; [destruct (opt_truthy (user self)) eqn:Huser |].
  - destruct (send_notification_configured http self message title w Htoken Huser)
      as (w' & Hrun & Hlog & _).
    simpl. rewrite Hrun. by right.
  - destruct (send_notification_unconfigured http self message title w) as (w' & Hrun & Hlog & _);
      [by right |]. simpl. rewrite Hrun. by left.
  - destruct (send_notification_unconfigured http self message title w) as (w' & Hrun & Hlog & _);
      [by left |]. simpl. rewrite Hrun. by left.
Qed.

Lemma call_posts f arguments w :
  let w' := (call http config f arguments w).2 in
  http_log w' = http_log w ∨ posts_one config f w w'.
Proof.
  destruct arguments as [| b | n | s | items | kwargs]; try (by left).
  destruct f as [[] | type_name call_error]; simpl; try (by left).
  - unfold call_record_user_details, bind.
    destruct (check_keywords_quiet "record_user_details" ["email"; "name"; "notes"] kwargs w)
      as [[[] | e] ->]; [| by left].
    destruct (required_quiet "record_user_details" "email" kwargs w)
      as [[email | e] ->]; [| by left].
    unfold record_user_details, send_user_registration, bind.
    pose proof (send_notification_posts (notification_client config)
                  (user_registration_message
                     (optional "name" (JStr "Name not provided") kwargs) email
                     (optional "notes" (JStr "not provided") kwargs))
                  (Some "User Registration") w) as Hposts.
    simpl in Hposts.
    destruct (send_notification http (notification_client config) _ _ w) as [[b | e] w'];
      simpl in *; (destruct Hposts as [Hsame | Hone]; [by left | right]);
      (split; [by left | by eexists _, _]).
  - unfold call_record_unknown_question, bind.
    destruct (check_keywords_quiet "record_unknown_question" ["question"] kwargs w)
      as [[[] | e] ->]; [| by left].
    destruct (required_quiet "record_unknown_question" "question" kwargs w)
      as [[question | e] ->]; [| by left].
    unfold record_unknown_question, send_unknown_question, bind.
    pose proof (send_notification_posts (notification_client config)
                  (unknown_question_message question) (Some "Unknown Question") w) as Hposts.
    simpl in Hposts.
    destruct (send_notification http (notification_client config) _ _ w) as [[b | e] w'];
      simpl in *; (destruct Hposts as [Hsame | Hone]; [by left | right]);
      (split; [by right | by eexists _, _]).
  - unfold call_get_tool_definitions, bind.
    destruct (check_keywords_quiet "get_tool_definitions" [] kwargs w)
      as [[[] | e] ->]; by left.
  - unfold call_handle_tool_calls, bind.
    destruct (check_keywords_quiet "handle_tool_calls" ["tool_calls"] kwargs w)
      as [[[] | e] ->]; [| by left].
    destruct (required_quiet "handle_tool_calls" "tool_calls" kwargs w)
      as [[tool_calls | e] ->]; [| by left].
    unfold handle_tool_calls_decoded.
    destruct tool_calls as [| b | n | [|c s] | [|item items] | [|item items]]; by left.
Qed.

(** A function of the module is bound to its own name only. *)
Lemma module_globals_function tool_name d :
  module_globals !! tool_name = Some (PyFunction d) → tool_name = def_name d.
Proof.
  unfold module_globals. intros Hbound.
  repeat (rewrite lookup_insert in Hbound; case_decide;
          [subst; first [by injection Hbound as <- | discriminate Hbound
                        | by unfold not_callable in Hbound] |]).
  by rewrite lookup_empty in Hbound.
Qed.

Lemma handle_tool_call_posts tool_call w :
  let w' := (handle_tool_call http config tool_call w).2 in
  http_log w' = http_log w ∨
  (names_record_tool tool_call ∧
   ∃ message title,
     http_log w' = http_log w ++
       [notification_request (notification_client config) message (Some title)]).
Proof.
  destruct (fn_arguments (call_function tool_call)) as [v | error] eqn:Hargs.
  - destruct (module_globals !! fn_name (call_function tool_call)) as [f |] eqn:Hbound.
    + simpl. rewrite (handle_tool_call_bound http config tool_call f v w Hbound Hargs).
      pose proof (call_posts f v (printed ["Tool called: " +:+ fn_name (call_function tool_call)] w))
        as Hposts.
      simpl in Hposts.
      destruct (call http config f v _) as [[result | e] w'];
        simpl in *; (destruct Hposts as [Hsame | [Hf Hone]]; [by left | right]);
        (split; [| exact Hone]);
        unfold names_record_tool;
        (destruct Hf as [-> | ->];
         rewrite (module_globals_function _ _ Hbound); simpl;
         [by left | right; by left]).
    + left. unfold handle_tool_call. by rewrite Hargs, Hbound.
  - left. unfold handle_tool_call. by rewrite Hargs.
Qed.

(** X10. Answering one call posts at most one notification, and posts
    one only when the call names one of the two record operations; the post
    is made by the module-level client. *)
Theorem tool_call_posts_at_most_once tool_call w :
  let w' := (handle_tool_call http config tool_call w).2 in
  (http_log w' = http_log w ∨
   (names_record_tool tool_call ∧
    ∃ message title,
      http_log w' = http_log w ++
        [notification_request (notification_client config) message (Some title)])) ∧
  (¬ names_record_tool tool_call → http_log w' = http_log w).
Proof.
  intros w'. pose proof (handle_tool_call_posts tool_call w) as Hposts.
  split; [exact Hposts |]. intros Hother.
  by destruct Hposts as [Hsame | [Hrecord _]].
Qed.

Lemma handle_tool_calls_from_posts tool_calls : ∀ results w,
  ∃ posts,
    http_log (handle_tool_calls_from http config results tool_calls w).2 = http_log w ++ posts ∧
    length posts ≤ length (filter names_record_tool tool_calls) ∧
    Forall pushover_post posts.
Proof.
  induction tool_calls as [| tool_call rest IH]; intros results w.
  - exists []. simpl. rewrite app_nil_r. split; [reflexivity |]. split; [lia | constructor].
  - simpl. unfold bind.
    pose proof (handle_tool_call_posts tool_call w) as Hposts. simpl in Hposts.
    destruct (handle_tool_call http config tool_call w) as [[entry | e] w1]; simpl in Hposts.
    + destruct (IH (results ++ [entry]) w1) as (posts & Hlog & Hlen & Hall).
      destruct Hposts as [Hsame | (Hrecord & message & title & Hone)].
      * exists posts. rewrite Hlog, Hsame. split; [reflexivity |]. split; [| exact Hall].
        rewrite filter_cons. case_decide; simpl; lia.
      * exists (notification_request (notification_client config) message (Some title) :: posts).
        rewrite Hlog, Hone, <- app_assoc. split; [reflexivity |].
        rewrite filter_cons, decide_True by exact Hrecord. split; [simpl; lia |].
        constructor; [by split | exact Hall].
    + destruct Hposts as [Hsame | (Hrecord & message & title & Hone)].
      * exists []. simpl. rewrite app_nil_r. split; [exact Hsame |]. split; [lia | constructor].
      * exists [notification_request (notification_client config) message (Some title)].
        split; [exact Hone |].
        rewrite filter_cons, decide_True by exact Hrecord. split; [simpl; lia |].
        constructor; [by split | constructor].
Qed.

(** X11. Answering a batch of calls posts at most as many notifications as
    there are calls naming a record operation, hence none when there are no
    such calls; every post goes to the Pushover endpoint with a timeout of ten
    seconds; no list changes and no model request is sent. *)
Theorem batch_posts_bounded tool_calls w :
  let w' := (handle_tool_calls http config tool_calls w).2 in
  ∃ posts,
    http_log w' = http_log w ++ posts ∧
    length posts ≤ length (filter names_record_tool (default [] tool_calls)) ∧
    Forall pushover_post posts ∧
    quiet w w'.
Proof.
  destruct tool_calls as [calls |]; simpl.
  - destruct (handle_tool_calls_from_posts calls [] w) as (posts & Hlog & Hlen & Hall).
    destruct (handle_tool_calls_from_quiet http config calls [] w) as (r & w' & Hrun & Hquiet).
    exists posts. split; [exact Hlog |]. split; [exact Hlen |]. split; [exact Hall |].
    by rewrite Hrun.
  - exists []. rewrite app_nil_r. split; [reflexivity |]. split; [simpl; lia |].
    split; [constructor | by split].
Qed.

Lemma handle_tool_calls_from_app first second : ∀ results w,
  handle_tool_calls_from http config results (first ++ second) w =
  match handle_tool_calls_from http config results first w with
  | (Ret entries, w') => handle_tool_calls_from http config entries second w'
  | (Raise e, w') => (Raise e, w')
  end.
Proof.
  induction first as [| tool_call rest IH]; intros results w; [reflexivity |].
  simpl. unfold bind.
  destruct (handle_tool_call http config tool_call w) as [[entry | e] w1]; [apply IH | reflexivity].
Qed.

(** X12. When the arguments of a call are not JSON text, the whole batch
    fails with the decoding error: no result is returned, not even for the
    calls answered before it, whose effects stay; the calls after it are not
    looked at. *)
Theorem undecodable_call_aborts_batch answered tool_call error rest w :
  encoded_calls answered →
  fn_arguments (call_function tool_call) = Malformed error →
  handle_tool_calls http config (Some (answered ++ tool_call :: rest)) w =
  (Raise (Exn JSONDecodeError error),
   (handle_tool_calls http config (Some answered) w).2).
Proof.
  intros Hanswered Hbroken. simpl. rewrite handle_tool_calls_from_app.
  destruct (handle_tool_calls_from_encoded http config answered [] w Hanswered)
    as (entries & w1 & -> & _).
  simpl. unfold bind, handle_tool_call. by rewrite Hbroken.
Qed.

(** X13. A contact call with an email, a name and notes, all texts, when
    both credentials are configured: the call is acknowledged, whatever
    becomes of the post, and exactly one post goes out, with the token, the
    user, the message naming the three texts (the notes only when not empty)
    and the title. *)
Theorem contact_call_posts tool_call email given notes token_text user_text w :
  fn_name (call_function tool_call) = "record_user_details" →
  fn_arguments (call_function tool_call) =
    Encoded (JObj [("email", JStr email); ("name", JStr given); ("notes", JStr notes)]) →
  pushover_token config = Some token_text → token_text ≠ "" →
  pushover_user config = Some user_text → user_text ≠ "" →
  ∃ w',
    handle_tool_call http config tool_call w = (Ret (tool_result recorded_ok tool_call), w') ∧
    http_log w' = http_log w ++
      [{| post_url := "https://api.pushover.net/1/messages.json";
          post_data :=
            [("token", token_text); ("user", user_text);
             ("message",
              ("New user registration: " +:+ given +:+ " (" +:+ email +:+ ")")
                +:+ (if Text.nonempty notes then " - Notes: " +:+ notes else ""));
             ("title", "User Registration")];
          post_timeout := 10 |}].
Proof.
  intros Hname Hargs Htoken Hnonempty Huser Hnonempty'.
  assert (module_globals !! fn_name (call_function tool_call)
          = Some (PyFunction def_record_user_details)) as Hbound by (by rewrite Hname).
  rewrite (handle_tool_call_bound http config tool_call _ _ w Hbound Hargs).
  set (w1 := printed _ w).
  change (call http config (PyFunction def_record_user_details)
            (JObj [("email", JStr email); ("name", JStr given); ("notes", JStr notes)]) w1)
    with (record_user_details http config (JStr email) (JStr given) (JStr notes) w1).
  unfold record_user_details, send_user_registration, bind.
  assert (opt_truthy (token (notification_client config)) = true) as Htok.
  { simpl. unfold py_or. simpl. rewrite Htoken. by destruct token_text. }
  assert (opt_truthy (user (notification_client config)) = true) as Husr.
  { simpl. unfold py_or. simpl. rewrite Huser. by destruct user_text. }
  destruct (send_notification_configured http (notification_client config)
              (user_registration_message (JStr given) (JStr email) (JStr notes))
              (Some "User Registration") w1 Htok Husr) as (w' & -> & Hlog & _).
  exists w'. split; [reflexivity |]. rewrite Hlog. subst w1. simpl. do 2 f_equal.
  unfold notification_request, notification_data. simpl. unfold py_or. simpl.
  rewrite Htoken, Huser. simpl.
  do 2 f_equal. unfold user_registration_message. simpl.
  destruct (Text.nonempty notes); [reflexivity | by rewrite append_empty_r].
Qed.

(** X14. A name that is bound in the module to something that is no
    function (an imported module, a type, the client, a module attribute) is
    not reported as not found: calling the object fails, the call is answered
    with that error, and nothing is posted. *)
Theorem bound_object_call_fails tool_call type_name call_error arguments w :
  module_globals !! fn_name (call_function tool_call) = Some (PyOther type_name call_error) →
  fn_arguments (call_function tool_call) = Encoded arguments →
  let tool_name := fn_name (call_function tool_call) in
  ∃ text,
    handle_tool_call http config tool_call w =
    (Ret (tool_result (JObj [("error", JStr text)]) tool_call),
     printed ["Tool called: " +:+ tool_name;
              "Error executing tool " +:+ tool_name +:+ ": " +:+ text] w) ∧
    (∀ kwargs, arguments = JObj kwargs → text = call_error).
Proof.
  intros Hbound Hargs tool_name.
  rewrite (handle_tool_call_bound http config tool_call _ _ w Hbound Hargs). fold tool_name.
  destruct arguments as [| b | n | s | items | kwargs]; simpl;
    (eexists; split; [unfold printed; simpl; by rewrite <- app_assoc |]);
    first [by intros kwargs' [= <-] | discriminate].
Qed.

End Posts.

Lemma advertised_call_accepted_witness :
  ∃ w', handle_tool_call Scenario.http_down Scenario.configured Scenario.contact_call
          empty_world =
        (Ret (tool_result recorded_ok Scenario.contact_call), w') ∧
        quiet empty_world w'.
Proof.
  refine (advertised_call_accepted Scenario.http_down Scenario.configured
            {| adv_name := "record_user_details";
               adv_properties := ["email"; "name"; "notes"];
               adv_required := ["email"] |}
            Scenario.contact_call (JObj [("email", JStr "a@b.com")]) empty_world
            _ eq_refl eq_refl eq_refl).
  rewrite advertised_tools_are. by left.
Defined.

Lemma advertised_call_rejected_witness :
  ∃ text,
    handle_tool_call Scenario.http_down Scenario.configured
      (Scenario.tool_call "call_5" "record_unknown_question" (JObj [("query", JStr "X?")]))
      empty_world =
    (Ret (tool_result (JObj [("error", JStr text)])
            (Scenario.tool_call "call_5" "record_unknown_question"
               (JObj [("query", JStr "X?")]))),
     printed ["Tool called: record_unknown_question";
              "Error executing tool record_unknown_question: " +:+ text] empty_world).
Proof.
  refine (advertised_call_rejected Scenario.http_down Scenario.configured
            {| adv_name := "record_unknown_question";
               adv_properties := ["question"];
               adv_required := ["question"] |}
            (Scenario.tool_call "call_5" "record_unknown_question" (JObj [("query", JStr "X?")]))
            (JObj [("query", JStr "X?")]) empty_world
            _ eq_refl eq_refl eq_refl).
  rewrite advertised_tools_are. right. by left.
Defined.

Lemma undecodable_call_aborts_batch_witness :
  handle_tool_calls (Scenario.http_status 200 "OK") Scenario.configured
    (Some ([Scenario.question_call] ++ Scenario.broken_call :: [Scenario.contact_call]))
    empty_world =
  (Raise (Exn JSONDecodeError "Expecting value: line 1 column 1 (char 0)"),
   (handle_tool_calls (Scenario.http_status 200 "OK") Scenario.configured
      (Some [Scenario.question_call]) empty_world).2).
Proof.
  refine (undecodable_call_aborts_batch (Scenario.http_status 200 "OK") Scenario.configured
            [Scenario.question_call] Scenario.broken_call _ [Scenario.contact_call]
            empty_world _ eq_refl).
  repeat constructor. eexists. reflexivity.
Defined.

Lemma contact_call_posts_witness :
  ∃ w',
    handle_tool_call Scenario.http_down Scenario.configured
      (Scenario.tool_call "call_6" "record_user_details"
         (JObj [("email", JStr "a@b.com"); ("name", JStr "Ada"); ("notes", JStr "")]))
      empty_world =
    (Ret (tool_result recorded_ok
            (Scenario.tool_call "call_6" "record_user_details"
               (JObj [("email", JStr "a@b.com"); ("name", JStr "Ada"); ("notes", JStr "")]))),
     w') ∧
    http_log w' =
      [{| post_url := "https://api.pushover.net/1/messages.json";
          post_data := [("token", "app-token"); ("user", "user-key");
                        ("message", "New user registration: Ada (a@b.com)");
                        ("title", "User Registration")];
          post_timeout := 10 |}].
Proof.
  refine (contact_call_posts Scenario.http_down Scenario.configured
            (Scenario.tool_call "call_6" "record_user_details"
               (JObj [("email", JStr "a@b.com"); ("name", JStr "Ada"); ("notes", JStr "")]))
            "a@b.com" "Ada" "" "app-token" "user-key" empty_world
            eq_refl eq_refl eq_refl _ eq_refl _); discriminate.
Defined.

Lemma bound_object_call_fails_witness :
  ∃ text,
    handle_tool_call Scenario.http_down Scenario.configured
      (Scenario.tool_call "call_8" "json" (JObj [])) empty_world =
    (Ret (tool_result (JObj [("error", JStr text)])
            (Scenario.tool_call "call_8" "json" (JObj []))),
     printed ["Tool called: json"; "Error executing tool json: " +:+ text] empty_world) ∧
    (∀ kwargs, JObj [] = JObj kwargs → text = "'module' object is not callable").
Proof.
  exact (bound_object_call_fails Scenario.http_down Scenario.configured
           (Scenario.tool_call "call_8" "json" (JObj []))
           "module" "'module' object is not callable" (JObj []) empty_world
           eq_refl eq_refl).
Defined.

(** ** The conversation, as a whole *)

Section Runs.

Variable endpoint : nat -> model_request -> endpoint_outcome.
Variable http : nat -> http_request -> post_outcome.
Variable config : Config.
Variable self : AIAgent.

Local Abbreviation process := (_process_conversation endpoint http config).

Lemma handle_tool_calls_from_undecodable tool_calls : ∀ results w,
  Exists undecodable tool_calls →
  ∃ e w', handle_tool_calls_from http config results tool_calls w = (Raise e, w') ∧
          quiet w w'.
Proof.
  induction tool_calls as [| tool_call rest IH]; intros results w Hbroken;
    [by apply Exists_nil in Hbroken |].
  simpl. unfold bind.
  destruct (fn_arguments (call_function tool_call)) as [v | error] eqn:Hargs.
  - destruct (handle_tool_call_encoded http config tool_call v w Hargs)
      as (result & w1 & -> & Hw1).
    apply Exists_cons in Hbroken as [[error Herror] | Hrest]; [congruence |].
    destruct (IH (results ++ [tool_result result tool_call]) w1 Hrest) as (e & w2 & -> & Hw2).
    exists e, w2. split; [reflexivity | by eapply quiet_trans].
  - unfold handle_tool_call. rewrite Hargs. eexists _, _. split; [reflexivity | by split].
Qed.

(** A request for tools that cannot be carried out ends with the apology,
    and the list [messages] stays as it is. *)
Lemma loop_body_tools_fail messages w response choice :
  endpoint (length (model_log w)) (next_request config self messages w) = Returns response →
  choices response !! 0 = Some choice →
  finish_reason choice = "tool_calls" →
  (tool_calls (message choice) = None ∨
   ∃ calls, tool_calls (message choice) = Some calls ∧ Exists undecodable calls) →
  ∃ w', loop_body endpoint http config self messages w = (Ret (Return apology), w') ∧
        model_log w' = model_log w ++ [next_request config self messages w] ∧
        heap w' = heap w.
Proof.
  intros Hreturns Hchoice Hreason Hcalls.
  unfold loop_body, try_except, bind at 1.
  rewrite completions_create_run, Hreturns. unfold bind at 1, index.
  rewrite Hchoice. simpl.
  apply String.eqb_eq in Hreason. rewrite Hreason.
  unfold handle_tool_calls, bind at 1.
  destruct Hcalls as [-> | (calls & -> & Hbroken)].
  - eexists. split; [reflexivity |]. by split.
  - destruct (handle_tool_calls_from_undecodable calls []
                (sent (next_request config self messages w) w) Hbroken)
      as (e & w1 & -> & Hheap & Hlog).
    eexists. split; [reflexivity |]. simpl. by split.
Qed.

(** X15. A first response that cannot be used ends [chat] with the
    apology after that one request: a response without choices, one that
    says [tool_calls] and carries no list of calls, and one in which the
    arguments of some call are not JSON text. Nothing is appended to the
    message list. *)
Theorem chat_unusable_response passes user_message history H w response :
  heap w !! history = Some H →
  endpoint (length (model_log w)) (request_for config self (opening self user_message H))
    = Returns response →
  (choices response = [] ∨
   ∃ choice,
     choices response !! 0 = Some choice ∧
     finish_reason choice = "tool_calls" ∧
     (tool_calls (message choice) = None ∨
      ∃ calls, tool_calls (message choice) = Some calls ∧ Exists undecodable calls)) →
  ∃ w', chat endpoint http config (S passes) self user_message history w =
          (Some (Ret (Some apology)), w') ∧
        model_log w' = model_log w ++ [request_for config self (opening self user_message H)] ∧
        heap w' = heap w ++ [opening self user_message H].
Proof.
  intros HH Hreturns Hunusable.
  rewrite chat_start, HH. simpl default.
  set (w1 := set_heap (heap w ++ [opening self user_message H]) w).
  assert (next_request config self (length (heap w)) w1 =
          request_for config self (opening self user_message H)) as Hnext.
  { unfold next_request, w1. by rewrite opening_allocated. }
  rewrite <- Hnext in Hreturns.
  assert (∃ w', loop_body endpoint http config self (length (heap w)) w1
                = (Ret (Return apology), w') ∧
                model_log w' = model_log w1 ++ [next_request config self (length (heap w)) w1] ∧
                heap w' = heap w1) as (w' & Hbody & Hlog & Hheap).
  { destruct Hunusable as [Hnone | (choice & Hchoice & Hreason & Hcalls)].
    - by apply (loop_body_no_choice endpoint http config self (length (heap w)) w1 response).
    - by apply (loop_body_tools_fail (length (heap w)) w1 response choice). }
  exists w'. simpl. rewrite Hbody. split; [reflexivity |].
  by rewrite Hlog, Hheap, Hnext.
Qed.

(** X16. When the first choice of the first response does not say
    [tool_calls], no tool runs, even if the message lists calls: besides the
    new message list and the one request, the world is as it was: nothing is
    posted, nothing is printed, and the list holds just the opening turns. *)
Theorem chat_answer_runs_no_tool passes user_message history H w response choice :
  heap w !! history = Some H →
  endpoint (length (model_log w)) (request_for config self (opening self user_message H))
    = Returns response →
  plain_answer response choice →
  chat endpoint http config (S passes) self user_message history w =
  (Some (Ret (content (message choice))),
   {| heap := heap w ++ [opening self user_message H];
      model_log := model_log w ++ [request_for config self (opening self user_message H)];
      http_log := http_log w;
      console := console w |}).
Proof.
  intros HH Hreturns Hplain.
  rewrite chat_start, HH. simpl default.
  set (w1 := set_heap (heap w ++ [opening self user_message H]) w).
  assert (next_request config self (length (heap w)) w1 =
          request_for config self (opening self user_message H)) as Hnext.
  { unfold next_request, w1. by rewrite opening_allocated. }
  simpl.
  rewrite (loop_body_answer endpoint http config self (length (heap w)) w1 response choice);
    [| by rewrite Hnext | exact Hplain].
  rewrite (final_answer_run response choice _ (proj1 Hplain)).
  by rewrite Hnext.
Qed.

Lemma chain_weaken items more requests :
  chain config self (items ++ more) requests → chain config self items requests.
Proof.
  destruct requests as [| request rest]; [done |].
  intros (Hmodel & Htools & [more' Hmessages] & Hrest).
  split; [exact Hmodel |]. split; [exact Htools |]. split; [| exact Hrest].
  exists (more ++ more'). by rewrite app_assoc.
Qed.

Lemma process_conversation_chain passes : ∀ messages w items,
  heap w !! messages = Some items →
  ∃ requests,
    model_log (process passes self messages w).2 = model_log w ++ requests ∧
    chain config self items requests ∧
    length requests ≤ passes ∧
    ((process passes self messages w).1 = None → length requests = passes).
Proof.
  induction passes as [| passes IH]; intros messages w items Hitems.
  - exists []. simpl. rewrite app_nil_r. by repeat split.
  - simpl.
    destruct (loop_body_pass endpoint http config self messages w)
      as (p & w1 & -> & Hlog & _ & Hgrow & Hdone).
    assert (next_request config self messages w = request_for config self items) as Hnext.
    { unfold next_request. by rewrite Hitems. }
    assert (chain config self items [next_request config self messages w]) as Hone.
    { rewrite Hnext. split; [reflexivity |]. split; [reflexivity |].
      split; [exists []; by rewrite app_nil_r | done]. }
    destruct p as [| response | value].
    + destruct (Hgrow items Hitems) as [more Hitems1].
      destruct (IH messages w1 (items ++ more) Hitems1) as (requests & Hlog1 & Hchain & Hlen & Hgoing).
      exists (next_request config self messages w :: requests).
      rewrite Hlog1, Hlog, <- app_assoc. split; [reflexivity |].
      split; [| split; [simpl; lia | intros Hnone; simpl; by rewrite Hgoing]].
      rewrite Hnext. split; [reflexivity |]. split; [reflexivity |].
      split; [exists []; by rewrite app_nil_r |]. simpl. by eapply chain_weaken.
    + destruct (Hdone response eq_refl) as [choice Hchoice].
      rewrite (final_answer_run response choice w1 Hchoice).
      exists [next_request config self messages w]. simpl.
      split; [exact Hlog |]. split; [exact Hone |]. split; [lia | discriminate].
    + exists [next_request config self messages w]. simpl.
      split; [exact Hlog |]. split; [exact Hone |]. split; [lia | discriminate].
Qed.

(** X17. Whatever the endpoint does, well formed or not, the requests a
    call of [chat] sends form a chain: all name the configured model and the
    tools of the agent; the first carries the system turn, the history and the
    user turn; each later one carries all the turns of the one before it, in
    the same order, and possibly more after them. There is at most one request
    per pass, and exactly one per pass while the loop is still going. *)
Theorem chat_requests_chain passes user_message history H w :
  heap w !! history = Some H →
  let run := chat endpoint http config passes self user_message history w in
  ∃ requests,
    model_log run.2 = model_log w ++ requests ∧
    chain config self (opening self user_message H) requests ∧
    (∀ first rest, requests = first :: rest →
       req_messages first = opening self user_message H) ∧
    length requests ≤ passes ∧
    (run.1 = None → length requests = passes).
Proof.
  intros HH run. subst run. rewrite chat_start, HH. simpl default.
  destruct (process_conversation_chain passes (length (heap w))
              (set_heap (heap w ++ [opening self user_message H]) w)
              (opening self user_message H) (opening_allocated self user_message H w))
    as (requests & Hlog & Hchain & Hlen & Hgoing).
  exists requests. split; [exact Hlog |]. split; [exact Hchain |].
  split; [| by split].
  intros first rest ->.
  destruct passes as [| passes]; [simpl in Hlen; lia |].
  destruct (process_conversation_first endpoint http config self passes (length (heap w))
              (set_heap (heap w ++ [opening self user_message H]) w)) as [later Hlater].
  rewrite Hlater in Hlog. apply app_inv_head in Hlog. injection Hlog as <- _.
  unfold next_request. by rewrite opening_allocated.
Qed.

(** X18. The agent keeps no conversation between calls. A call of [chat]
    creates exactly one list and leaves the others alone, so a second call
    starts from its own history only: its first request carries the system
    turn, the items its history had before the first call, and its user turn,
    and none of the turns of the first call. *)
Theorem chat_calls_are_independent passes passes' said said' history history' H H' w :
  heap w !! history = Some H →
  heap w !! history' = Some H' →
  let w1 := (chat endpoint http config passes self said history w).2 in
  length (heap w1) = S (length (heap w)) ∧
  ∃ later,
    model_log (chat endpoint http config (S passes') self said' history' w1).2 =
    model_log w1 ++ request_for config self (opening self said' H') :: later.
Proof.
  intros HH HH' w1.
  assert (length (heap w1) = S (length (heap w)) ∧ heap w1 !! history' = Some H')
    as [Hlength Hkept].
  { subst w1. rewrite chat_start, HH. simpl default.
    destruct (process_conversation_run endpoint http config self passes (length (heap w))
                (set_heap (heap w ++ [opening self said H]) w))
      as (r & w' & requests & -> & _ & _ & [Hlen Hframe] & _).
    simpl in *. rewrite length_app in Hlen. simpl in Hlen. split; [lia |].
    assert (history' < length (heap w)) as Hlt by (by eapply lookup_lt_Some).
    rewrite Hframe by lia. by rewrite lookup_app_l. }
  split; [exact Hlength |].
  rewrite chat_start, Hkept. simpl default.
  destruct (process_conversation_first endpoint http config self passes' (length (heap w1))
              (set_heap (heap w1 ++ [opening self said' H']) w1)) as [later Hlater].
  exists later. rewrite Hlater. unfold next_request. by rewrite opening_allocated.
Qed.

End Runs.

Lemma chat_unusable_response_witness :
  ∃ w', chat Scenario.endpoint_garbles (Scenario.http_status 200 "OK") Scenario.configured
          1 Scenario.agent "Hi" 0 Scenario.start =
        (Some (Ret (Some apology)), w') ∧
        model_log w' =
          model_log Scenario.start ++
            [request_for Scenario.configured Scenario.agent
               (opening Scenario.agent "Hi" Scenario.earlier)] ∧
        heap w' = heap Scenario.start ++ [opening Scenario.agent "Hi" Scenario.earlier].
Proof.
  refine (chat_unusable_response Scenario.endpoint_garbles (Scenario.http_status 200 "OK")
            Scenario.configured Scenario.agent 0 "Hi" 0 Scenario.earlier Scenario.start
            (Scenario.tools_response [Scenario.question_call; Scenario.broken_call])
            eq_refl eq_refl _).
  right. eexists. split; [reflexivity |]. split; [reflexivity |].
  right. eexists. split; [reflexivity |].
  apply Exists_cons_tl, Exists_cons_hd. eexists. reflexivity.
Defined.

Lemma chat_answer_runs_no_tool_witness :
  chat Scenario.endpoint_stops_with_call Scenario.http_down Scenario.configured
    1 Scenario.agent "Hi" 0 Scenario.start =
  (Some (Ret (Some "Hello")),
   {| heap := heap Scenario.start ++ [opening Scenario.agent "Hi" Scenario.earlier];
      model_log := model_log Scenario.start ++
                     [request_for Scenario.configured Scenario.agent
                        (opening Scenario.agent "Hi" Scenario.earlier)];
      http_log := http_log Scenario.start;
      console := console Scenario.start |}).
Proof.
  refine (chat_answer_runs_no_tool Scenario.endpoint_stops_with_call Scenario.http_down
            Scenario.configured Scenario.agent 0 "Hi" 0 Scenario.earlier Scenario.start
            _ {| finish_reason := "stop";
                 message := {| content := Some "Hello";
                               tool_calls := Some [Scenario.contact_call] |} |}
            eq_refl eq_refl _).
  split; [reflexivity | discriminate].
Defined.

Lemma chat_requests_chain_witness :
  ∃ requests,
    model_log (chat (Scenario.endpoint_script 2) (Scenario.http_status 200 "OK")
                 Scenario.configured 3 Scenario.agent "Hi" 0 Scenario.start).2 =
      model_log Scenario.start ++ requests ∧
    chain Scenario.configured Scenario.agent
      (opening Scenario.agent "Hi" Scenario.earlier) requests.
Proof.
  destruct (chat_requests_chain (Scenario.endpoint_script 2) (Scenario.http_status 200 "OK")
              Scenario.configured Scenario.agent 3 "Hi" 0 Scenario.earlier Scenario.start
              eq_refl) as (requests & Hlog & Hchain & _).
  exists requests. split; [exact Hlog | exact Hchain].
Defined.

Lemma chat_calls_are_independent_witness :
  ∃ later,
    model_log
      (chat Scenario.endpoint_answers Scenario.http_down Scenario.configured 1
         Scenario.agent "And then?" 0
         (chat (Scenario.endpoint_script 1) Scenario.http_down Scenario.configured 2
            Scenario.agent "Hi" 0 Scenario.start).2).2 =
    model_log (chat (Scenario.endpoint_script 1) Scenario.http_down Scenario.configured 2
                 Scenario.agent "Hi" 0 Scenario.start).2
      ++ request_for Scenario.configured Scenario.agent
           (opening Scenario.agent "And then?" Scenario.earlier) :: later.
Proof.
  exact (proj2 (chat_calls_are_independent (Scenario.endpoint_script 1) Scenario.http_down
                  Scenario.configured Scenario.agent 2 0 "Hi" "And then?" 0 0
                  Scenario.earlier Scenario.earlier Scenario.start eq_refl eq_refl)).
Defined.

